(** * A shallow embedding of the chilix-msg core in Rocq

    Covered: the balanced codec ([codec/balanced_codec.go]), the AES
    encryptor wrapper, the type registry ([core/type_registry.go]), the
    request manager and the processor's read loop and send paths. *)

From Stdlib Require Import ZArith List String Ascii Lia.
From stdpp Require Import base gmap strings list.
Import ListNotations.
Open Scope Z_scope.

(* ===================================================================== *)
(** ** Bytes, errors and the result monad *)
(* ===================================================================== *)

(** A byte is a [Z] in [0, 256); a Go [[]byte] is a list of those. *)
Definition bytes := list Z.

Definition byte_ok (b : Z) : Prop := 0 <= b < 256.
Definition bytes_ok (l : bytes) : Prop := Forall byte_ok l.

(** Go's [byte(x)] conversion: keep the low 8 bits. *)
Definition to_byte (x : Z) : Z := Z.land x 255.

(** The error values the core returns. [ErrOther] stands for an error
    coming from a collaborator (serializer, encryptor, transport). *)
Inductive error :=
| ErrEOF
| ErrUnexpectedEOF
| ErrInvalidMagic
| ErrUnsupportedVersion
| ErrInvalidLength
| ErrInvalidMessageFormat
| ErrMessageTooLarge
| ErrEncryptionFailed
| ErrDecryptionFailed
| ErrInvalidKey
| ErrTypeConflict
| ErrRequestTimeout
| ErrOther (msg : string).

(** Modelled from the spec: [ErrUnsupportedVersion] is returned by
    [DecodeWithFlags] but its declaration (and so its message) is not under
    src/; the spec only names the kind "UnsupportedVersion". *)
Definition unsupported_version_msg : string := "unsupported protocol version".

(** [err.Error()]: the message each [errors.New] was created with. *)
Definition Error (e : error) : string :=
  match e with
  | ErrEOF => "EOF"
  | ErrUnexpectedEOF => "unexpected EOF"
  | ErrInvalidMagic => "invalid magic number"
  | ErrUnsupportedVersion => unsupported_version_msg
  | ErrInvalidLength => "invalid message length"
  | ErrInvalidMessageFormat => "invalid message format"
  | ErrMessageTooLarge => "message too large"
  | ErrEncryptionFailed => "encryption failed"
  | ErrDecryptionFailed => "decryption failed"
  | ErrInvalidKey => "invalid encryption key"
  | ErrTypeConflict => "type hash conflict"
  | ErrRequestTimeout => "request timeout"
  | ErrOther msg => msg
  end.

(** Go's [(T, error)] return convention. *)
Inductive result (A : Type) :=
| Ok (a : A)
| Err (e : error).
Arguments Ok {A} a.
Arguments Err {A} e.

Definition bind {A B} (m : result A) (k : A -> result B) : result B :=
  match m with
  | Ok a => k a
  | Err e => Err e
  end.

Notation "x <- m ;; k" := (bind m (fun x => k))
  (at level 100, m at next level, right associativity).
Notation "' p <- m ;; k" := (bind m (fun p => k))
  (at level 100, p pattern, m at next level, right associativity).

(* ===================================================================== *)
(** ** Reading from a stream: [io.ReadFull] *)
(* ===================================================================== *)

(** The remaining bytes of an [io.Reader]. [io.ReadFull(r, buf)] with
    [len(buf) = n]: [EOF] when nothing at all could be read,
    [ErrUnexpectedEOF] when the stream ends part way, and a zero-length
    read always succeeds. *)
Definition read_full (n : nat) (s : bytes) : result (bytes * bytes) :=
  if (n =? 0)%nat then Ok ([], s)
  else match s with
       | [] => Err ErrEOF
       | _ => if (length s <? n)%nat then Err ErrUnexpectedEOF
              else Ok (firstn n s, skipn n s)
       end.

(** [binary.BigEndian.PutUintN]: [n] bytes, most significant first. *)
Fixpoint put_be (n : nat) (x : Z) : bytes :=
  match n with
  | O => []
  | S n' => put_be n' (Z.shiftr x 8) ++ [to_byte x]
  end.

(** [binary.BigEndian.UintN]: the base-256 value of the bytes. *)
Definition get_be (l : bytes) : Z :=
  fold_left (fun acc b => acc * 256 + b) l 0.

(* ===================================================================== *)
(** ** FNV-1a 32 and the type registry ([core/type_registry.go]) *)
(* ===================================================================== *)

Definition offset32 : Z := 2166136261.
Definition prime32 : Z := 16777619.

(** [hash/fnv.New32a]: for every byte, [hash ^= uint32(c); hash *= prime32]
    on a [uint32]. *)
Fixpoint fnv32a_from (hash : Z) (s : string) : Z :=
  match s with
  | EmptyString => hash
  | String c s' =>
      fnv32a_from ((Z.lxor hash (Z.of_N (N_of_ascii c)) * prime32) mod 2 ^ 32) s'
  end.

Definition fnv32a (s : string) : Z := fnv32a_from offset32 s.

Record Registry := mkRegistry {
  nameToID : gmap string Z;
  idToName : gmap Z string
}.

Definition NewRegistry : Registry := mkRegistry ∅ ∅.

(** [Registry.Register], with the registry threaded as state: the error
    path returns the registry as it was. *)
Definition Register (r : Registry) (msgType : string) : result Z * Registry :=
  let hash := fnv32a msgType in
  match idToName r !! hash with
  | Some existing =>
      if String.eqb existing msgType
      then (Ok hash, mkRegistry (<[msgType := hash]> (nameToID r))
                                (<[hash := msgType]> (idToName r)))
      else (Err ErrTypeConflict, r)
  | None =>
      (Ok hash, mkRegistry (<[msgType := hash]> (nameToID r))
                           (<[hash := msgType]> (idToName r)))
  end.

Definition GetName (r : Registry) (id : Z) : option string := idToName r !! id.
Definition GetID (r : Registry) (msgType : string) : option Z := nameToID r !! msgType.


(* ===================================================================== *)
(** ** The balanced codec ([codec/balanced_codec.go]) *)
(* ===================================================================== *)

Definition MagicNumber : Z := 1128812621. (* 0x4348504D, "CHPM" *)
Definition MaxMessageSize : Z := 16 * 1024 * 1024.
Definition BalancedVersion : Z := 2.
Definition BalancedHeaderSize : Z := 21.

Definition BalancedFlagNone : Z := 0.
Definition BalancedFlagCompressed : Z := 1.
Definition BalancedFlagEncrypted : Z := 2.
Definition BalancedFlagExtended : Z := 8.

Record TLV := mkTLV {
  tlv_Type : Z;       (* uint8 *)
  tlv_Length : Z;     (* uint16 *)
  tlv_Value : bytes
}.

(** The [Serializer] interface, for payload values of type [V]. *)
Record Serializer (V : Type) := mkSerializer {
  Serialize : V -> result bytes;
  Deserialize : bytes -> result V
}.
Arguments mkSerializer {V} _ _.
Arguments Serialize {V} _ _.
Arguments Deserialize {V} _ _.

(** The [Encryptor] interface. *)
Record Encryptor := mkEncryptor {
  Encrypt : bytes -> result bytes;
  Decrypt : bytes -> result bytes
}.

(** [BalancedCodec]: the serializer and the optional ([nil]) encryptor;
    the buffer pool has no observable effect. *)
Record BalancedCodec (V : Type) := mkCodec {
  serializer : Serializer V;
  encryptor : option Encryptor
}.
Arguments mkCodec {V} _ _.
Arguments serializer {V} _.
Arguments encryptor {V} _.

(** [BinarySerializer] on a [[]byte] payload: passthrough both ways. *)
Definition BinarySerializer : Serializer bytes := mkSerializer Ok Ok.

Definition NewBalancedCodec {V} (s : Serializer V) : BalancedCodec V := mkCodec s None.

(** One TLV as [EncodeWithFlags] appends it to [extData]. *)
Definition tlv_bytes (tlv : TLV) : bytes :=
  [tlv_Type tlv; to_byte (Z.shiftr (tlv_Length tlv) 8);
   to_byte (Z.land (tlv_Length tlv) 255)] ++ tlv_Value tlv.

(** The extension region: the TLVs, then the sentinel [0,0,0]; empty when
    there are no extensions. *)
Definition ext_region (extensions : list TLV) : bytes :=
  match extensions with
  | [] => []
  | _ => concat (map tlv_bytes extensions) ++ [0; 0; 0]
  end.

(** The header [make([]byte, BalancedHeaderSize)]: the fields fill bytes
    0..19, the remaining byte keeps its zero value. *)
Definition encode_header (flags totalLength requestID typeID : Z) : bytes :=
  put_be 4 MagicNumber
  ++ [to_byte (Z.lor (Z.shiftl BalancedVersion 4) flags)]
  ++ [to_byte (Z.shiftr totalLength 16); to_byte (Z.shiftr totalLength 8);
      to_byte totalLength]
  ++ put_be 8 requestID
  ++ put_be 4 typeID
  ++ repeat 0 (Z.to_nat (BalancedHeaderSize - 20)).

(** [EncodeWithFlags]: on success, the sequence of [w.Write] calls it
    issues (header, extension region when non-empty, payload). On error
    nothing has been written. *)
Definition EncodeWithFlags {V} (c : BalancedCodec V) (typeID : Z) (payload : V)
    (requestID flags : Z) (extensions : list TLV) : result (list bytes) :=
  data <- Serialize (serializer c) payload ;;
  data <- (if negb (Z.land flags BalancedFlagEncrypted =? 0) then
             match encryptor c with
             | None => Err ErrEncryptionFailed
             | Some e => Encrypt e data
             end
           else Ok data) ;;
  let flags := match extensions with
               | [] => flags
               | _ => Z.lor flags BalancedFlagExtended
               end in
  let extData := ext_region extensions in
  let extLen := Z.of_nat (length extData) in
  let totalLength := BalancedHeaderSize + extLen + Z.of_nat (length data) in
  if MaxMessageSize <? totalLength then Err ErrMessageTooLarge
  else
    let header := encode_header flags totalLength requestID typeID in
    Ok ([header] ++ (if 0 <? extLen then [extData] else []) ++ [data]).

Definition Encode {V} (c : BalancedCodec V) (typeID : Z) (payload : V)
    (requestID : Z) : result (list bytes) :=
  EncodeWithFlags c typeID payload requestID BalancedFlagNone [].

(** [header[i:i+n]] *)
Definition slice (i n : nat) (l : bytes) : bytes := firstn n (skipn i l).

(** Steps 2 to 6 of [DecodeWithFlags]: validate the fixed header and return
    flags, total length, request id and type id. *)
Definition parse_header (header : bytes) : result (Z * Z * Z * Z) :=
  let magic := get_be (slice 0 4 header) in
  if negb (magic =? MagicNumber) then Err ErrInvalidMagic
  else
    let versionFlags := nth 4 header 0 in
    let version := Z.shiftr versionFlags 4 in
    let flags := Z.land versionFlags 15 in
    if negb (version =? BalancedVersion) then Err ErrUnsupportedVersion
    else
      let totalLength := get_be (slice 5 3 header) in
      if (totalLength <? BalancedHeaderSize) || (MaxMessageSize <? totalLength)
      then Err ErrInvalidLength
      else Ok (flags, totalLength, get_be (slice 8 8 header),
               get_be (slice 16 4 header)).

(** Step 7: the [for] loop over TLVs until a zero length. Returns the TLVs,
    the region's length [extLen] (sentinel included) and the rest of the
    stream. Every iteration that does not stop consumes at least 4 bytes,
    so [fuel = S (length s)] never runs out. *)
Fixpoint read_tlvs (fuel : nat) (s : bytes) : result (list TLV * Z * bytes) :=
  match fuel with
  | O => Err ErrUnexpectedEOF
  | S fuel' =>
      '(tlvHeader, s1) <- read_full 3 s ;;
      let tlvType := nth 0 tlvHeader 0 in
      let tlvLen := get_be (slice 1 2 tlvHeader) in
      if tlvLen =? 0 then Ok ([], 3, s1)
      else
        '(value, s2) <- read_full (Z.to_nat tlvLen) s1 ;;
        '(rest, extLen, s3) <- read_tlvs fuel' s2 ;;
        Ok (mkTLV tlvType tlvLen value :: rest, 3 + tlvLen + extLen, s3)
  end.

Definition read_extensions (flags : Z) (s : bytes) : result (list TLV * Z * bytes) :=
  if negb (Z.land flags BalancedFlagExtended =? 0)
  then read_tlvs (S (length s)) s
  else Ok ([], 0, s).

(** [DecodeWithFlags]: [(typeID, payload, requestID, flags, extensions)]
    and the unread rest of the stream. *)
Definition DecodeWithFlags {V} (c : BalancedCodec V) (s : bytes)
    : result (Z * bytes * Z * Z * list TLV * bytes) :=
  '(header, s1) <- read_full (Z.to_nat BalancedHeaderSize) s ;;
  '(flags, totalLength, requestID, typeID) <- parse_header header ;;
  '(extensions, extLen, s2) <- read_extensions flags s1 ;;
  let payloadLength := totalLength - BalancedHeaderSize - extLen in
  if payloadLength <? 0 then Err ErrInvalidMessageFormat
  else
    '(payload, s3) <- read_full (Z.to_nat payloadLength) s2 ;;
    payload <- (if negb (Z.land flags BalancedFlagEncrypted =? 0) then
                  match encryptor c with
                  | None => Err ErrDecryptionFailed
                  | Some e => Decrypt e payload
                  end
                else Ok payload) ;;
    Ok (typeID, payload, requestID, flags, extensions, s3).

Definition Decode {V} (c : BalancedCodec V) (s : bytes) : result (Z * bytes * Z * bytes) :=
  '(typeID, payload, requestID, _, _, rest) <- DecodeWithFlags c s ;;
  Ok (typeID, payload, requestID, rest).

Definition bin_codec : BalancedCodec bytes := NewBalancedCodec BinarySerializer.

Example encode_decode_small :
  match EncodeWithFlags bin_codec 7 [1; 2] 5 0 [mkTLV 1 1 [9]] with
  | Ok ws => DecodeWithFlags bin_codec (concat ws)
  | Err e => Err e
  end = Ok (7, [1; 2], 5, 8, [mkTLV 1 1 [9]], []).
Proof. vm_compute. reflexivity. Qed.

(* ===================================================================== *)
(** ** The AES-GCM encryptor *)
(* ===================================================================== *)

(** The AEAD returned by [cipher.NewGCM(aes.NewCipher(key))]; Go's crypto
    library, not this repository, so it is kept abstract. [gcm_Seal n m]
    is what [gcm.Seal] appends after its [dst] argument. *)
Record GCM := mkGCM {
  gcm_NonceSize : nat;
  gcm_Seal : bytes -> bytes -> bytes;
  gcm_Open : bytes -> bytes -> result bytes
}.

(** [aes.NewCipher] followed by [cipher.NewGCM]. *)
Definition GCMLib := bytes -> result GCM.

Record AESEncryptor := mkAESEncryptor { aes_key : bytes }.

(** [NewAESEncryptor] *)
Definition NewAESEncryptor (key : bytes) : result AESEncryptor :=
  if negb (length key =? 16)%nat && negb (length key =? 24)%nat
     && negb (length key =? 32)%nat
  then Err ErrInvalidKey
  else Ok (mkAESEncryptor key).

(** [AESEncryptor.Encrypt]; [rnd] is what [rand.Reader] yields. *)
Definition AES_Encrypt (lib : GCMLib) (e : AESEncryptor) (rnd data : bytes)
    : result bytes :=
  gcm <- lib (aes_key e) ;;
  '(nonce, _) <- read_full (gcm_NonceSize gcm) rnd ;;
  Ok (nonce ++ gcm_Seal gcm nonce data).

(** [AESEncryptor.Decrypt] *)
Definition AES_Decrypt (lib : GCMLib) (e : AESEncryptor) (data : bytes)
    : result bytes :=
  gcm <- lib (aes_key e) ;;
  let nonceSize := gcm_NonceSize gcm in
  if (length data <? nonceSize)%nat then Err ErrDecryptionFailed
  else gcm_Open gcm (firstn nonceSize data) (skipn nonceSize data).

(* ===================================================================== *)
(** ** Request manager and processor ([core] package) *)
(* ===================================================================== *)

(** A [Response] as built by [Listen]. *)
Record Response := mkResponse {
  resp_msgType : string;
  resp_requestID : Z;
  resp_rawData : bytes
}.

(** The [processorContext] handed to a dispatched handler. *)
Record Context := mkContext {
  ctx_msgType : string;
  ctx_requestID : Z;
  ctx_rawData : bytes
}.

(** A channel is named by the request id it was created for
    ([make(chan Response, 1)] in [StartRequest]). *)
Definition chan := Z.

(** What the read loop does with a frame that is not dropped. *)
Inductive Effect :=
| Delivered (ch : chan) (resp : Response)   (* [ch <- response] *)
| Dispatched (ctx : Context).                (* [go p.dispatchMessage(...)] *)

(** The processor's state that the read loop and the send paths use:
    the type registry, the [RequestManager] (id counter and [pending]
    map), [config.MessageSizeLimit] and whether [Close] cancelled [p.ctx]. *)
Record Processor := mkProcessor {
  typeRegistry : Registry;
  counter : Z;
  pending : gmap Z chan;
  MessageSizeLimit : Z;
  cancelled : bool
}.

Definition set_registry (p : Processor) (r : Registry) : Processor :=
  mkProcessor r (counter p) (pending p) (MessageSizeLimit p) (cancelled p).
Definition set_pending (p : Processor) (m : gmap Z chan) : Processor :=
  mkProcessor (typeRegistry p) (counter p) m (MessageSizeLimit p) (cancelled p).

(** [RequestManager.StartRequest]: [idGen.Next()] (atomic increment of a
    [uint64]), a new channel stored under the id. *)
Definition StartRequest (p : Processor) : Z * chan * Processor :=
  let requestID := (counter p + 1) mod 2 ^ 64 in
  (requestID, requestID,
   mkProcessor (typeRegistry p) requestID (<[requestID := requestID]> (pending p))
               (MessageSizeLimit p) (cancelled p)).

Definition CancelRequest (p : Processor) (requestID : Z) : Processor :=
  set_pending p (delete requestID (pending p)).

Definition IsPending (p : Processor) (requestID : Z) : option chan :=
  pending p !! requestID.

(** [processor.isRecoverableError]: a switch on [err.Error()]. *)
Definition isRecoverableError (e : error) : bool :=
  let msg := Error e in
  if String.eqb msg "EOF" then false
  else if String.eqb msg "connection reset by peer" then false
  else true.

(** A decoded frame: [(msgTypeID, rawData, requestID)] from [codec.Decode]. *)
Definition Frame := (Z * bytes * Z)%type.

(** The body of [Listen] after a successful decode. *)
Definition listen_frame (p : Processor) (fr : Frame) : list Effect * Processor :=
  let '(msgTypeID, rawData, requestID) := fr in
  match GetName (typeRegistry p) msgTypeID with
  | None => ([], p)                               (* unknown type: continue *)
  | Some msgType =>
      if (0 <? MessageSizeLimit p) && (MessageSizeLimit p <? Z.of_nat (length rawData))
      then ([], p)                                (* too large: continue *)
      else
        let dispatch := ([Dispatched (mkContext msgType requestID rawData)], p) in
        if 0 <? requestID then
          match IsPending p requestID with
          | Some ch =>
              ([Delivered ch (mkResponse msgType requestID rawData)],
               CancelRequest p requestID)
          | None => dispatch
          end
        else dispatch
  end.

(** How the loop stands once the modelled input is used up. *)
Inductive ListenOutcome :=
| Returned (e : option error)   (* [Listen] returned [err] (or [nil]) *)
| StillListening.               (* still in the [for] loop *)

(** [processor.Listen], run over the successive results of
    [p.codec.Decode(p.conn)]. Returns the outcome, the final state and the
    effects of the frames in order. *)
Fixpoint Listen (p : Processor) (decoded : list (result Frame))
    : ListenOutcome * Processor * list Effect :=
  match decoded with
  | [] => (StillListening, p, [])
  | d :: rest =>
      if cancelled p then (Returned None, p, [])
      else match d with
           | Err e =>
               if isRecoverableError e then Listen p rest
               else (Returned (Some e), p, [])
           | Ok fr =>
               let '(effs, p') := listen_frame p fr in
               let '(o, p'', effs') := Listen p' rest in
               (o, p'', effs ++ effs')
           end
  end.

(** Type-id lookup with lazy registration, shared by [Send], [Request]
    and [Reply]. *)
Definition ensure_type (p : Processor) (msgType : string) : result Z * Processor :=
  match GetID (typeRegistry p) msgType with
  | Some id => (Ok id, p)
  | None =>
      let '(r, reg) := Register (typeRegistry p) msgType in
      (r, set_registry p reg)
  end.

(** [processor.Send]: on success, the writes issued on [p.conn]. *)
Definition Send {V} (c : BalancedCodec V) (p : Processor) (msgType : string)
    (payload : V) : result (list bytes) * Processor :=
  let '(r, p) := ensure_type p msgType in
  match r with
  | Err e => (Err e, p)
  | Ok msgTypeID => (Encode c msgTypeID payload 0, p)
  end.

(** [processor.Reply]: like [Send], with the request id of the request
    being answered. *)
Definition Reply {V} (c : BalancedCodec V) (p : Processor) (requestID : Z)
    (msgType : string) (payload : V) : result (list bytes) * Processor :=
  let '(r, p) := ensure_type p msgType in
  match r with
  | Err e => (Err e, p)
  | Ok msgTypeID => (Encode c msgTypeID payload requestID, p)
  end.

(** Two tasks writing to one connection with no lock: each [w.Write] call
    is one step, and the steps of the two tasks may come in any order. *)
Inductive interleave {A : Type} : list A -> list A -> list A -> Prop :=
| il_nil : interleave [] [] []
| il_left x l1 l2 l : interleave l1 l2 l -> interleave (x :: l1) l2 (x :: l)
| il_right x l1 l2 l : interleave l1 l2 l -> interleave l1 (x :: l2) (x :: l).

(** The timing of [processor.Request]. Time is in ticks; [now] is the
    instant [StartRequest] returns. The transport is described by how long
    the [Write] calls of [Encode] block and whether they fail, and by the
    instant (if any) at which [Listen] sends the reply into the channel. *)
Record Transport := mkTransport {
  write_duration : nat;
  write_error : option error;
  reply_at : option (nat * Response)
}.

(** [processor.Request]: returns the instant it returns at and its result.
    The [select] starts when [Encode] has returned; [time.After] then
    fires [RequestTimeout] ticks later. *)
Definition Request {V} (c : BalancedCodec V) (RequestTimeout : nat)
    (p : Processor) (msgType : string) (payload : V) (now : nat)
    (tr : Transport) : nat * result Response * Processor :=
  let '(requestID, ch, p) := StartRequest p in
  let '(r, p) := ensure_type p msgType in
  match r with
  | Err e => (now, Err e, CancelRequest p requestID)
  | Ok msgTypeID =>
      match Encode c msgTypeID payload requestID with
      | Err e => (now, Err e, CancelRequest p requestID)
      | Ok _ =>
          let t1 := (now + write_duration tr)%nat in
          match write_error tr with
          | Some e => (t1, Err e, CancelRequest p requestID)
          | None =>
              let deadline := (t1 + RequestTimeout)%nat in
              match reply_at tr with
              | Some (t, response) =>
                  (* [Listen] has already removed the pending entry *)
                  if (t <? deadline)%nat
                  then (Nat.max t t1, Ok response, p)
                  else (deadline, Err ErrRequestTimeout, CancelRequest p requestID)
              | None => (deadline, Err ErrRequestTimeout, CancelRequest p requestID)
              end
          end
      end
  end.

(** The writes [Request] issues on [p.conn]: the frame [Encode] writes
    for the type id of [msgType] and the id [StartRequest] returned, or the
    error of the type registration or of [Encode], before any write. *)
Definition request_frame {V} (c : BalancedCodec V) (p : Processor) (msgType : string)
    (payload : V) : result (list bytes) :=
  let '(requestID, _, p) := StartRequest p in
  let '(r, _) := ensure_type p msgType in
  match r with
  | Err e => Err e
  | Ok msgTypeID => Encode c msgTypeID payload requestID
  end.

(* ===================================================================== *)
(** ** Helper lemmas and test points *)
(* ===================================================================== *)

Definition is_delivered (eff : Effect) : bool :=
  match eff with Delivered _ _ => true | Dispatched _ => false end.

Definition proc0 : Processor := mkProcessor NewRegistry 0 ∅ 0 false.

Lemma Register_ok_shape (r : Registry) (n : string) (id : Z) (r' : Registry) :
  Register r n = (Ok id, r') ->
  id = fnv32a n /\
  r' = mkRegistry (<[n := fnv32a n]> (nameToID r)) (<[fnv32a n := n]> (idToName r)).
Proof.
  unfold Register.
  destruct (idToName r !! fnv32a n) as [existing|];
    [destruct (String.eqb existing n)|]; intros H; inversion H; auto.
Qed.

(* ===================================================================== *)
(** ** Type registry *)
(* ===================================================================== *)

(** C7: [Register] is idempotent (a second registration of the same name
    succeeds with the same FNV-1a-32 id and the same maps), and when two
    distinct names share a hash the second registration fails with
    [TypeConflict], leaving both maps as they were. *)
Theorem Register_idempotent_conflict :
  (forall (r : Registry) (n : string) (id : Z) (r' : Registry),
      Register r n = (Ok id, r') ->
      id = fnv32a n /\ Register r' n = (Ok id, r')) /\
  (forall (r : Registry) (n1 n2 : string) (id : Z) (r' : Registry),
      n1 <> n2 -> fnv32a n1 = fnv32a n2 ->
      Register r n1 = (Ok id, r') ->
      Register r' n2 = (Err ErrTypeConflict, r')).
Proof.
  split.
  - intros r n id r' H. apply Register_ok_shape in H as [-> ->].
    split; [reflexivity|].
    unfold Register; cbn. rewrite lookup_insert_eq, String.eqb_refl.
    rewrite !insert_insert_eq. reflexivity.
  - intros r n1 n2 id r' Hne Hh H. apply Register_ok_shape in H as [-> ->].
    unfold Register; cbn. rewrite <- Hh, lookup_insert_eq.
    destruct (String.eqb n1 n2) eqn:E.
    + apply String.eqb_eq in E. contradiction.
    + reflexivity.
Qed.

Lemma Register_idempotent_conflict_witness :
  "costarring" <> "liquid" /\ fnv32a "costarring" = fnv32a "liquid" /\
  Register (snd (Register NewRegistry "costarring")) "liquid"
  = (Err ErrTypeConflict, snd (Register NewRegistry "costarring")).
Proof.
  split; [discriminate|]. split; [vm_compute; reflexivity|].
  apply (proj2 Register_idempotent_conflict NewRegistry "costarring" "liquid"
           (fnv32a "costarring")).
  - discriminate.
  - vm_compute. reflexivity.
  - reflexivity.
Defined.

(* ===================================================================== *)
(** ** The read loop *)
(* ===================================================================== *)

(** C3 (failing input): after an [InvalidMagic] decode error the loop
    does not return; it decodes the next frame and only stops at [EOF]. *)
Lemma Listen_continues_after_invalid_magic :
  Listen proc0 [Err ErrInvalidMagic; Err ErrEOF] = (Returned (Some ErrEOF), proc0, []) /\
  Listen proc0 [Err ErrInvalidMagic] = (StillListening, proc0, []).
Proof. split; reflexivity. Qed.

(** C3 (code bug): [Listen] classifies decode errors by their message;
    only ["EOF"] and ["connection reset by peer"] end the loop, although
    [isRecoverableError]'s own comment counts serious protocol errors as
    unrecoverable. The malformed-frame errors [InvalidMagic],
    [UnsupportedVersion], [InvalidLength] and [InvalidMessageFormat] fall
    in its default branch and are classified recoverable: the loop goes on
    to decode the next frame as if the error had not happened, where the
    spec has it return. *)
Theorem Listen_malformed_frame_recoverable :
  (forall e : error,
      isRecoverableError e = false <->
      Error e = "EOF" \/ Error e = "connection reset by peer") /\
  (forall (e : error) (p : Processor) (rest : list (result Frame)),
      In e [ErrInvalidMagic; ErrUnsupportedVersion; ErrInvalidLength;
            ErrInvalidMessageFormat] ->
      cancelled p = false ->
      isRecoverableError e = true /\ Listen p (Err e :: rest) = Listen p rest).
Proof.
  split.
  - intros e. unfold isRecoverableError.
    destruct (String.eqb (Error e) "EOF") eqn:E1.
    + apply String.eqb_eq in E1. tauto.
    + destruct (String.eqb (Error e) "connection reset by peer") eqn:E2.
      * apply String.eqb_eq in E2. tauto.
      * apply String.eqb_neq in E1, E2. split; [discriminate|tauto].
  - intros e p rest Hin Hc.
    assert (Hr : isRecoverableError e = true)
      by (destruct Hin as [<-|[<-|[<-|[<-|[]]]]]; reflexivity).
    split; [exact Hr|]. cbn. rewrite Hc, Hr. reflexivity.
Qed.

Lemma Listen_malformed_frame_recoverable_witness :
  isRecoverableError ErrInvalidLength = true /\
  Listen proc0 [Err ErrInvalidLength; Err ErrEOF] = Listen proc0 [Err ErrEOF].
Proof.
  apply (proj2 Listen_malformed_frame_recoverable ErrInvalidLength proc0 [Err ErrEOF]).
  - cbn. tauto.
  - reflexivity.
Defined.

(** A processor that knows type 5 as "echo" and waits on request 1. *)
Definition proc_waiting : Processor :=
  mkProcessor (snd (Register NewRegistry "echo")) 1 {[1 := 1]} 0 false.

(** C6 (counterexample): a frame whose request id is pending but whose
    type id is not in the registry is dropped: nothing is delivered and
    the request stays pending. *)
Lemma Listen_pending_reply_unknown_type_dropped :
  IsPending proc0 1 = None /\
  IsPending (set_pending proc0 {[1 := 1]}) 1 = Some 1 /\
  listen_frame (set_pending proc0 {[1 := 1]}) (7, [1], 1)
  = ([], set_pending proc0 {[1 := 1]}).
Proof. repeat split; reflexivity. Qed.

(** C6 (amended): a frame whose type id is registered, whose payload
    passes the [MessageSizeLimit] check and whose non-zero request id is
    pending is delivered to that request's channel alone, is not
    dispatched to a handler, and removes the pending entry, so a later
    frame with the same request id is not delivered as a reply. A frame
    with an unknown type id or an oversize payload is dropped, leaving the
    state as it was, even when its request id is pending; a frame with
    request id 0 of a known type within the limit is dispatched, even when
    id 0 is pending. *)
Theorem Listen_reply_delivered_once :
  (forall (p : Processor) (msgTypeID : Z) (rawData : bytes) (requestID : Z)
          (msgType : string) (ch : chan),
      GetName (typeRegistry p) msgTypeID = Some msgType ->
      (MessageSizeLimit p <= 0 \/ Z.of_nat (length rawData) <= MessageSizeLimit p) ->
      0 < requestID ->
      IsPending p requestID = Some ch ->
      listen_frame p (msgTypeID, rawData, requestID)
      = ([Delivered ch (mkResponse msgType requestID rawData)], CancelRequest p requestID) /\
      IsPending (CancelRequest p requestID) requestID = None /\
      (forall (msgTypeID' : Z) (rawData' : bytes),
          forallb (fun eff => negb (is_delivered eff))
            (fst (listen_frame (CancelRequest p requestID) (msgTypeID', rawData', requestID)))
          = true)) /\
  (forall (p : Processor) (msgTypeID : Z) (rawData : bytes) (requestID : Z),
      GetName (typeRegistry p) msgTypeID = None ->
      listen_frame p (msgTypeID, rawData, requestID) = ([], p)) /\
  (forall (p : Processor) (msgTypeID : Z) (rawData : bytes) (requestID : Z)
          (msgType : string),
      GetName (typeRegistry p) msgTypeID = Some msgType ->
      0 < MessageSizeLimit p < Z.of_nat (length rawData) ->
      listen_frame p (msgTypeID, rawData, requestID) = ([], p)) /\
  (forall (p : Processor) (msgTypeID : Z) (rawData : bytes) (msgType : string),
      GetName (typeRegistry p) msgTypeID = Some msgType ->
      (MessageSizeLimit p <= 0 \/ Z.of_nat (length rawData) <= MessageSizeLimit p) ->
      listen_frame p (msgTypeID, rawData, 0)
      = ([Dispatched (mkContext msgType 0 rawData)], p)).
Proof.
  assert (Hsize : forall (p : Processor) (rawData : bytes),
             (MessageSizeLimit p <= 0 \/ Z.of_nat (length rawData) <= MessageSizeLimit p) ->
             ((0 <? MessageSizeLimit p) &&
              (MessageSizeLimit p <? Z.of_nat (length rawData)))%bool = false).
  { intros p rawData Hsz.
    destruct Hsz; [rewrite (proj2 (Z.ltb_ge _ _)) by lia; reflexivity|].
    rewrite (proj2 (Z.ltb_ge (MessageSizeLimit p) _)) by lia.
    apply andb_false_r. }
  split; [|split; [|split]].
  - intros p msgTypeID rawData requestID msgType ch Hn Hsz Hr Hp.
    assert (Hdel : IsPending (CancelRequest p requestID) requestID = None).
    { unfold IsPending, CancelRequest. cbn. apply lookup_delete_eq. }
    split; [|split; [exact Hdel|]].
    + cbn. rewrite Hn, (Hsize p rawData Hsz), (proj2 (Z.ltb_lt _ _) Hr), Hp. reflexivity.
    + intros tid raw. cbn -[IsPending].
      destruct (GetName (typeRegistry p) tid); [|reflexivity].
      destruct ((0 <? MessageSizeLimit p) &&
                (MessageSizeLimit p <? Z.of_nat (length raw)))%bool; [reflexivity|].
      rewrite Hdel. destruct (0 <? requestID); reflexivity.
  - intros p msgTypeID rawData requestID Hn. cbn. rewrite Hn. reflexivity.
  - intros p msgTypeID rawData requestID msgType Hn Hsz. cbn. rewrite Hn.
    rewrite (proj2 (Z.ltb_lt 0 _)), (proj2 (Z.ltb_lt (MessageSizeLimit p) _)) by lia.
    reflexivity.
  - intros p msgTypeID rawData msgType Hn Hsz. cbn. rewrite Hn, (Hsize p rawData Hsz).
    reflexivity.
Qed.

Lemma Listen_reply_delivered_once_witness :
  listen_frame proc_waiting (fnv32a "echo", [1; 2], 1)
  = ([Delivered 1 (mkResponse "echo" 1 [1; 2])], CancelRequest proc_waiting 1) /\
  listen_frame (set_pending proc0 {[1 := 1]}) (7, [1], 1)
  = ([], set_pending proc0 {[1 := 1]}) /\
  listen_frame (mkProcessor (typeRegistry proc_waiting) 1 {[1 := 1]} 1 false)
    (fnv32a "echo", [1; 2], 1)
  = ([], mkProcessor (typeRegistry proc_waiting) 1 {[1 := 1]} 1 false) /\
  listen_frame (set_pending proc_waiting {[0 := 0]}) (fnv32a "echo", [1; 2], 0)
  = ([Dispatched (mkContext "echo" 0 [1; 2])], set_pending proc_waiting {[0 := 0]}).
Proof.
  split; [|split; [|split]].
  - apply (proj1 Listen_reply_delivered_once proc_waiting (fnv32a "echo") [1; 2] 1 "echo" 1).
    + vm_compute. reflexivity.
    + cbn. lia.
    + lia.
    + reflexivity.
  - apply (proj1 (proj2 Listen_reply_delivered_once)). reflexivity.
  - apply (proj1 (proj2 (proj2 Listen_reply_delivered_once)) _ _ _ _ "echo").
    + vm_compute. reflexivity.
    + cbn. lia.
  - apply (proj2 (proj2 (proj2 Listen_reply_delivered_once))).
    + vm_compute. reflexivity.
    + cbn. lia.
Defined.

(* ===================================================================== *)
(** ** Request timing *)
(* ===================================================================== *)

(** C4 (counterexample): with a 10-tick [RequestTimeout] and a transport
    whose [Write] blocks for 30 ticks and never answers, [Request] returns
    [RequestTimeout] 40 ticks after [StartRequest] returned. *)
Lemma Request_timeout_after_blocking_write :
  fst (fst (Request bin_codec 10 proc0 "ping" [] 0 (mkTransport 30 None None))) = 40%nat /\
  snd (fst (Request bin_codec 10 proc0 "ping" [] 0 (mkTransport 30 None None)))
  = Err ErrRequestTimeout /\
  (0 + 10 < 40)%nat.
Proof. vm_compute. repeat split; lia. Qed.

(** C4 (amended): the [RequestTimeout] timer starts only once [Encode]
    and its blocking writes have returned. [Request] returns at the latest
    [RequestTimeout] after that instant. When the frame was encoded and so
    written, it returns no earlier than the writes returned, so a slow
    write delays the return by its whole duration; if the writes succeed
    and no reply comes, it returns [RequestTimeout] exactly
    [RequestTimeout] after the writes returned. When the type registration
    or [Encode] fails, no write happens and it returns at once with that
    error. *)
Theorem Request_deadline_after_write :
  (forall {V} (c : BalancedCodec V) (T : nat) (p : Processor) (msgType : string)
          (payload : V) (now : nat) (tr : Transport),
      (fst (fst (Request c T p msgType payload now tr))
       <= now + write_duration tr + T)%nat) /\
  (forall {V} (c : BalancedCodec V) (T : nat) (p : Processor) (msgType : string)
          (payload : V) (now : nat) (tr : Transport) (ws : list bytes),
      request_frame c p msgType payload = Ok ws ->
      (now + write_duration tr <= fst (fst (Request c T p msgType payload now tr)))%nat /\
      (write_error tr = None -> reply_at tr = None ->
       fst (fst (Request c T p msgType payload now tr)) = (now + write_duration tr + T)%nat /\
       snd (fst (Request c T p msgType payload now tr)) = Err ErrRequestTimeout)) /\
  (forall {V} (c : BalancedCodec V) (T : nat) (p : Processor) (msgType : string)
          (payload : V) (now : nat) (tr : Transport) (e : error),
      request_frame c p msgType payload = Err e ->
      fst (fst (Request c T p msgType payload now tr)) = now /\
      snd (fst (Request c T p msgType payload now tr)) = Err e).
Proof.
  split; [|split].
  - intros V c T p msgType payload now tr. unfold Request.
    destruct (StartRequest p) as [[rid ch] p1].
    destruct (ensure_type p1 msgType) as [[tid|e] p2]; cbn; [|lia].
    destruct (Encode c tid payload rid); cbn; [|lia].
    destruct (write_error tr); cbn; [lia|].
    destruct (reply_at tr) as [[t resp]|]; cbn; [|lia].
    match goal with |- context [if ?b then _ else _] => destruct b eqn:E end;
      cbn; [|lia].
    apply Nat.ltb_lt in E. lia.
  - intros V c T p msgType payload now tr ws. unfold Request, request_frame.
    destruct (StartRequest p) as [[rid ch] p1].
    destruct (ensure_type p1 msgType) as [[tid|e] p2]; [|discriminate].
    destruct (Encode c tid payload rid); [|discriminate]. intros _.
    split.
    + destruct (write_error tr); cbn; [lia|].
      destruct (reply_at tr) as [[t resp]|]; cbn; [|lia].
      match goal with |- context [if ?b then _ else _] => destruct b end; cbn; lia.
    + intros Hw Hr. rewrite Hw, Hr. split; reflexivity.
  - intros V c T p msgType payload now tr e. unfold Request, request_frame.
    destruct (StartRequest p) as [[rid ch] p1].
    destruct (ensure_type p1 msgType) as [[tid|e'] p2].
    + destruct (Encode c tid payload rid); [discriminate|].
      intros H. injection H as ->. split; reflexivity.
    + intros H. injection H as ->. split; reflexivity.
Qed.

(** A processor whose registry holds "costarring", whose FNV-1a hash is
    also that of "liquid". *)
Definition proc_conflict : Processor :=
  mkProcessor (snd (Register NewRegistry "costarring")) 0 ∅ 0 false.

Lemma Request_deadline_after_write_witness :
  ((0 + 30 <= fst (fst (Request bin_codec 10 proc0 "ping" [] 0 (mkTransport 30 None None))))%nat
   /\ (None = @None error -> None = @None (nat * Response) ->
       fst (fst (Request bin_codec 10 proc0 "ping" [] 0 (mkTransport 30 None None)))
       = (0 + 30 + 10)%nat /\
       snd (fst (Request bin_codec 10 proc0 "ping" [] 0 (mkTransport 30 None None)))
       = Err ErrRequestTimeout)) /\
  fst (fst (Request bin_codec 10 proc_conflict "liquid" [] 0 (mkTransport 30 None None)))
  = 0%nat /\
  snd (fst (Request bin_codec 10 proc_conflict "liquid" [] 0 (mkTransport 30 None None)))
  = Err ErrTypeConflict.
Proof.
  split.
  - apply (proj1 (proj2 Request_deadline_after_write) bytes bin_codec 10%nat proc0 "ping" []
             0%nat (mkTransport 30 None None)
             (match request_frame bin_codec proc0 "ping" [] with
              | Ok ws => ws | Err _ => [] end)).
    vm_compute. reflexivity.
  - apply (proj2 (proj2 Request_deadline_after_write) bytes bin_codec 10%nat proc_conflict
             "liquid" [] 0%nat (mkTransport 30 None None)).
    vm_compute. reflexivity.
Defined.

(* ===================================================================== *)
(** ** Writes of one frame *)
(* ===================================================================== *)

Lemma length_put_be (n : nat) (x : Z) : length (put_be n x) = n.
Proof.
  revert x; induction n as [|n IH]; intros x; cbn; [reflexivity|].
  rewrite length_app, IH. cbn. lia.
Qed.

Lemma length_encode_header (f t r i : Z) :
  length (encode_header f t r i) = Z.to_nat BalancedHeaderSize.
Proof.
  unfold encode_header. rewrite !length_app, !length_put_be. reflexivity.
Qed.

(** The writes of a successful [EncodeWithFlags]: the 21-byte header, the
    extension region when there is one, and the payload bytes. *)
Lemma EncodeWithFlags_writes {V} (c : BalancedCodec V) (typeID : Z) (payload : V)
    (requestID flags : Z) (extensions : list TLV) (ws : list bytes) :
  EncodeWithFlags c typeID payload requestID flags extensions = Ok ws ->
  exists data0 data,
    Serialize (serializer c) payload = Ok data0 /\
    (if negb (Z.land flags BalancedFlagEncrypted =? 0) then
       match encryptor c with
       | None => Err ErrEncryptionFailed
       | Some e => Encrypt e data0
       end
     else Ok data0) = Ok data /\
    BalancedHeaderSize + Z.of_nat (length (ext_region extensions))
      + Z.of_nat (length data) <= MaxMessageSize /\
    ws = [encode_header (match extensions with
                         | [] => flags
                         | _ => Z.lor flags BalancedFlagExtended
                         end)
                        (BalancedHeaderSize + Z.of_nat (length (ext_region extensions))
                         + Z.of_nat (length data)) requestID typeID]
         ++ (if 0 <? Z.of_nat (length (ext_region extensions))
             then [ext_region extensions] else [])
         ++ [data].
Proof.
  unfold EncodeWithFlags.
  destruct (Serialize (serializer c) payload) as [data0|e]; cbn; [|discriminate].
  destruct (if negb (Z.land flags BalancedFlagEncrypted =? 0) then _ else _)
    as [data|e] eqn:Hd; cbn; [|discriminate].
  destruct (MaxMessageSize <? _) eqn:Hm; [discriminate|].
  intros H. inversion H; subst. exists data0, data.
  apply Z.ltb_ge in Hm. repeat split; auto.
Qed.

(* ===================================================================== *)
(** ** Codec lemmas: big-endian fields, header, TLVs *)
(* ===================================================================== *)

Lemma to_byte_mod (x : Z) : to_byte x = x mod 256.
Proof. unfold to_byte. change 255 with (Z.ones 8). apply Z.land_ones. lia. Qed.

Lemma get_be_snoc (l : bytes) (b : Z) : get_be (l ++ [b]) = get_be l * 256 + b.
Proof. unfold get_be. rewrite fold_left_app. reflexivity. Qed.

Lemma get_be_put_be (n : nat) (x : Z) :
  get_be (put_be n x) = x mod 2 ^ (8 * Z.of_nat n).
Proof.
  revert x; induction n as [|n IH]; intros x.
  - cbn. rewrite Z.mod_1_r. reflexivity.
  - cbn [put_be]. rewrite get_be_snoc, IH, to_byte_mod.
    rewrite Z.shiftr_div_pow2 by lia.
    replace (8 * Z.of_nat (S n)) with (8 + 8 * Z.of_nat n) by lia.
    rewrite Z.pow_add_r by lia.
    rewrite Z.rem_mul_r by (try apply Z.pow_pos_nonneg; lia).
    change (2 ^ 8) with 256. lia.
Qed.

Lemma get_be_put_be_small (n : nat) (x : Z) :
  0 <= x < 2 ^ (8 * Z.of_nat n) -> get_be (put_be n x) = x.
Proof. intros H. rewrite get_be_put_be. apply Z.mod_small. exact H. Qed.

Lemma put_be_3 (t : Z) :
  put_be 3 t = [to_byte (Z.shiftr t 16); to_byte (Z.shiftr t 8); to_byte t].
Proof.
  cbn. rewrite !Z.shiftr_shiftr by lia. reflexivity.
Qed.

Lemma put_be_2 (l : Z) :
  put_be 2 l = [to_byte (Z.shiftr l 8); to_byte l].
Proof. reflexivity. Qed.

(** The version-and-flags byte of a 4-bit flag set. *)
Lemma version_flags_byte (f : Z) :
  0 <= f < 16 ->
  Z.shiftr (to_byte (Z.lor (Z.shiftl BalancedVersion 4) f)) 4 = BalancedVersion /\
  Z.land (to_byte (Z.lor (Z.shiftl BalancedVersion 4) f)) 15 = f.
Proof.
  intros H.
  assert (f = 0 \/ f = 1 \/ f = 2 \/ f = 3 \/ f = 4 \/ f = 5 \/ f = 6 \/ f = 7 \/
          f = 8 \/ f = 9 \/ f = 10 \/ f = 11 \/ f = 12 \/ f = 13 \/ f = 14 \/ f = 15)
    as Hf by lia.
  repeat (destruct Hf as [->|Hf]; [split; reflexivity|]); subst; split; reflexivity.
Qed.

Ltac close_flags :=
  cbv; repeat split; first [reflexivity | intro; discriminate].

Lemma flags_extended_range (f : Z) :
  0 <= f < 16 ->
  0 <= Z.lor f BalancedFlagExtended < 16 /\
  Z.land (Z.lor f BalancedFlagExtended) BalancedFlagExtended <> 0 /\
  Z.land (Z.lor f BalancedFlagExtended) BalancedFlagEncrypted
  = Z.land f BalancedFlagEncrypted.
Proof.
  intros H.
  assert (f = 0 \/ f = 1 \/ f = 2 \/ f = 3 \/ f = 4 \/ f = 5 \/ f = 6 \/ f = 7 \/
          f = 8 \/ f = 9 \/ f = 10 \/ f = 11 \/ f = 12 \/ f = 13 \/ f = 14 \/ f = 15)
    as Hf by lia.
  repeat (destruct Hf as [->|Hf]; [close_flags|]); subst; close_flags.
Qed.

Lemma parse_header_encode_header (f t r i : Z) :
  0 <= f < 16 ->
  BalancedHeaderSize <= t < MaxMessageSize ->
  0 <= r < 2 ^ 64 ->
  0 <= i < 2 ^ 32 ->
  parse_header (encode_header f t r i) = Ok (f, t, r, i).
Proof.
  intros Hf Ht Hr Hi.
  assert (E0 : slice 0 4 (encode_header f t r i) = put_be 4 MagicNumber) by reflexivity.
  assert (E4 : nth 4 (encode_header f t r i) 0
               = to_byte (Z.lor (Z.shiftl BalancedVersion 4) f)) by reflexivity.
  assert (E5 : slice 5 3 (encode_header f t r i) = put_be 3 t)
    by (rewrite put_be_3; reflexivity).
  assert (E8 : slice 8 8 (encode_header f t r i) = put_be 8 r) by reflexivity.
  assert (E16 : slice 16 4 (encode_header f t r i) = put_be 4 i) by reflexivity.
  destruct (version_flags_byte f Hf) as [Hv Hfl].
  unfold parse_header.
  rewrite E0, E4, E5, E8, E16, Hv, Hfl.
  rewrite (get_be_put_be_small 3 t)
    by (change (2 ^ (8 * Z.of_nat 3)) with 16777216;
        unfold MaxMessageSize, BalancedHeaderSize in *; lia).
  rewrite (get_be_put_be_small 8 r) by exact Hr.
  rewrite (get_be_put_be_small 4 i) by exact Hi.
  cbn -[Z.pow get_be put_be].
  rewrite (proj2 (Z.ltb_ge t BalancedHeaderSize)) by lia.
  rewrite (proj2 (Z.ltb_ge MaxMessageSize t)) by lia.
  reflexivity.
Qed.

Lemma read_full_app (n : nat) (l tail : bytes) :
  length l = n -> read_full n (l ++ tail) = Ok (l, tail).
Proof.
  intros <-. unfold read_full.
  destruct l as [|b l]; [reflexivity|].
  rewrite (proj2 (Nat.ltb_ge (length ((b :: l) ++ tail)) (length (b :: l))))
    by (rewrite length_app; lia).
  rewrite firstn_app, skipn_app, firstn_all, skipn_all, Nat.sub_diag.
  cbn -[length]. rewrite app_nil_r. reflexivity.
Qed.

(** A well-formed TLV: a [uint8] type, a [Length] field that is the
    length of [Value] and fits a [uint16]. A zero [Length] is the sentinel
    of the wire format, so a TLV carried as data has a non-empty value. *)
Definition tlv_ok (t : TLV) : Prop :=
  0 <= tlv_Type t < 256 /\
  tlv_Length t = Z.of_nat (length (tlv_Value t)) /\
  0 < tlv_Length t < 65536.

Lemma to_byte_idem (x : Z) : to_byte (Z.land x 255) = to_byte x.
Proof. unfold to_byte. rewrite <- Z.land_assoc. reflexivity. Qed.

Lemma tlv_bytes_shape (t : TLV) :
  tlv_bytes t = [tlv_Type t] ++ put_be 2 (tlv_Length t) ++ tlv_Value t.
Proof. unfold tlv_bytes. rewrite put_be_2, to_byte_idem. reflexivity. Qed.

Lemma length_tlvs_le (exts : list TLV) :
  (length exts <= length (concat (map tlv_bytes exts)))%nat.
Proof.
  induction exts as [|t exts IH]; cbn [length concat map]; [lia|].
  rewrite !length_app. unfold tlv_bytes in *. rewrite length_app. cbn [length]. lia.
Qed.

Lemma read_tlvs_encoded (exts : list TLV) (fuel : nat) (tail : bytes) :
  Forall tlv_ok exts ->
  (length exts < fuel)%nat ->
  read_tlvs fuel (concat (map tlv_bytes exts) ++ [0; 0; 0] ++ tail)
  = Ok (exts, Z.of_nat (length (concat (map tlv_bytes exts))) + 3, tail).
Proof.
  revert fuel. induction exts as [|t exts IH]; intros fuel Hok Hf;
    (destruct fuel as [|fuel]; [cbn in Hf; lia|]).
  - cbn [concat map]. rewrite app_nil_l. cbn [read_tlvs].
    rewrite (read_full_app 3 [0; 0; 0] tail) by reflexivity. reflexivity.
  - inversion Hok as [|? ? [Ht [Hl Hr]] Hok']; subst.
    cbn [concat map]. rewrite tlv_bytes_shape, <- !app_assoc.
    rewrite (app_assoc [tlv_Type t] (put_be 2 (tlv_Length t))).
    cbn [read_tlvs].
    rewrite (read_full_app 3 ([tlv_Type t] ++ put_be 2 (tlv_Length t))) by reflexivity.
    cbn [bind].
    assert (Hs : slice 1 2 ([tlv_Type t] ++ put_be 2 (tlv_Length t))
                 = put_be 2 (tlv_Length t)) by reflexivity.
    assert (Hn : nth 0 ([tlv_Type t] ++ put_be 2 (tlv_Length t)) 0 = tlv_Type t)
      by reflexivity.
    cbv beta iota. rewrite Hs, Hn.
    rewrite get_be_put_be_small by (cbn; lia).
    rewrite (proj2 (Z.eqb_neq _ 0)) by lia.
    rewrite read_full_app by lia. cbn [bind].
    rewrite IH by (auto; cbn in Hf; lia). cbn [bind].
    destruct t as [ty len v]. cbn in *.
    rewrite length_app. do 3 f_equal. lia.
Qed.

Lemma fnv32a_from_range (s : string) (h : Z) :
  0 <= h < 2 ^ 32 -> 0 <= fnv32a_from h s < 2 ^ 32.
Proof.
  revert h; induction s as [|ch s IH]; intros h Hh; cbn; [exact Hh|].
  apply IH. apply Z.mod_pos_bound. lia.
Qed.

Lemma fnv32a_range (s : string) : 0 <= fnv32a s < 2 ^ 32.
Proof. apply fnv32a_from_range. unfold offset32. lia. Qed.

Lemma concat_writes (h e d : bytes) :
  concat ([h] ++ (if 0 <? Z.of_nat (length e) then [e] else []) ++ [d]) = h ++ e ++ d.
Proof.
  destruct e as [|b e]; simpl; rewrite ?app_nil_r; reflexivity.
Qed.

(** Decoding the bytes of an encoded frame, followed by anything. *)
Lemma DecodeWithFlags_encoded {V} (c : BalancedCodec V) (flags typeID requestID : Z)
    (exts : list TLV) (data rest : bytes) (flags' total : Z) :
  0 <= flags < 16 -> Forall tlv_ok exts ->
  (exts = [] -> Z.land flags BalancedFlagExtended = 0) ->
  0 <= requestID < 2 ^ 64 -> 0 <= typeID < 2 ^ 32 ->
  flags' = match exts with [] => flags | _ => Z.lor flags BalancedFlagExtended end ->
  total = BalancedHeaderSize + Z.of_nat (length (ext_region exts)) + Z.of_nat (length data) ->
  total < MaxMessageSize ->
  DecodeWithFlags c (encode_header flags' total requestID typeID ++ ext_region exts
                     ++ data ++ rest)
  = (payload <- (if negb (Z.land flags' BalancedFlagEncrypted =? 0) then
                   match encryptor c with
                   | None => Err ErrDecryptionFailed
                   | Some e => Decrypt e data
                   end
                 else Ok data) ;;
     Ok (typeID, payload, requestID, flags', exts, rest)).
Proof.
  intros Hf Hok Hnil Hr Hi Hf' Ht Hmax.
  assert (Hf'r : 0 <= flags' < 16).
  { subst flags'. destruct exts; [exact Hf|apply flags_extended_range; exact Hf]. }
  unfold DecodeWithFlags.
  rewrite (read_full_app (Z.to_nat BalancedHeaderSize)) by apply length_encode_header.
  cbn [bind].
  rewrite parse_header_encode_header
    by (auto; subst total; unfold BalancedHeaderSize in *; lia).
  cbn [bind].
  assert (Hx : read_extensions flags' (ext_region exts ++ data ++ rest)
               = Ok (exts, Z.of_nat (length (ext_region exts)), data ++ rest)).
  { destruct exts as [|t ts].
    - subst flags'. unfold read_extensions. rewrite Hnil by reflexivity. reflexivity.
    - destruct (flags_extended_range flags Hf) as (_ & Hx8 & _).
      subst flags'. unfold read_extensions.
      rewrite (proj2 (Z.eqb_neq _ 0) Hx8). cbn [negb].
      unfold ext_region. rewrite <- app_assoc.
      rewrite read_tlvs_encoded; [| exact Hok |].
      + rewrite (length_app _ [0; 0; 0]), Nat2Z.inj_add. reflexivity.
      + pose proof (length_tlvs_le (t :: ts)). rewrite !length_app. lia. }
  rewrite Hx. cbn [bind].
  replace (total - BalancedHeaderSize - Z.of_nat (length (ext_region exts)))
    with (Z.of_nat (length data)) by lia.
  rewrite (proj2 (Z.ltb_ge _ 0)) by lia.
  rewrite Nat2Z.id, read_full_app by reflexivity.
  reflexivity.
Qed.

(* ===================================================================== *)
(** ** Writes of concurrent senders *)
(* ===================================================================== *)

(** C5 (counterexample): two tasks each [Send] one frame; since the three
    [Write] calls of each frame are not under a common lock, the second
    header can be written between the first header and the first payload,
    and the bytes on the wire are neither frame order. *)
Lemma Send_frames_interleave :
  exists ws1 ws2 wire,
    fst (Send bin_codec proc0 "a" [1]) = Ok ws1 /\
    fst (Send bin_codec proc0 "b" [2]) = Ok ws2 /\
    interleave ws1 ws2 wire /\
    concat wire <> concat ws1 ++ concat ws2 /\
    concat wire <> concat ws2 ++ concat ws1.
Proof.
  vm_compute.
  eexists _, _, _. split; [reflexivity|]. split; [reflexivity|].
  split.
  - apply il_left, il_right, il_left, il_right, il_nil.
  - split; discriminate.
Qed.

(** The writes of one frame on the [Encode] path (no flags, no
    extensions): exactly two [Write] calls, the 21-byte header with the
    magic and the request id first, then the serialized payload. *)
Definition encode_writes {V} (c : BalancedCodec V) (payload : V) (requestID : Z)
    (ws : list bytes) : Prop :=
  exists header data,
    ws = [header; data] /\ length header = 21%nat /\
    get_be (slice 0 4 header) = MagicNumber /\
    get_be (slice 8 8 header) = requestID mod 2 ^ 64 /\
    Serialize (serializer c) payload = Ok data.

Lemma Encode_writes {V} (c : BalancedCodec V) (typeID : Z) (payload : V)
    (requestID : Z) (ws : list bytes) :
  Encode c typeID payload requestID = Ok ws -> encode_writes c payload requestID ws.
Proof.
  unfold Encode. intros H.
  apply EncodeWithFlags_writes in H as (data0 & data & Hs & Hd & _ & ->).
  cbn in Hd. injection Hd as <-.
  exists (encode_header BalancedFlagNone
            (BalancedHeaderSize + Z.of_nat (length (ext_region [])) + Z.of_nat (length data0))
            requestID typeID), data0.
  split; [reflexivity|]. split; [apply length_encode_header|].
  split; [reflexivity|]. split; [|exact Hs].
  change (slice 8 8 (encode_header _ _ requestID typeID)) with (put_be 8 requestID).
  rewrite get_be_put_be. reflexivity.
Qed.

(** C5 (amended): [Send], [Request] and [Reply] take no lock around
    [Encode]. They pass no extensions, so every frame leaves as two
    separate [Write] calls: the 21-byte header (carrying the frame's
    request id), then the serialized payload. Two tasks' writes on one
    connection may come in any order, so the second header may be written
    right after the first header, before the first payload: on the wire
    the bytes 21 to 41 are then the second frame's header. *)
Theorem Send_separate_writes_may_interleave :
  (forall {V} (c : BalancedCodec V) (p : Processor) (msgType : string)
          (payload : V) (ws : list bytes),
      fst (Send c p msgType payload) = Ok ws -> encode_writes c payload 0 ws) /\
  (forall {V} (c : BalancedCodec V) (p : Processor) (msgType : string)
          (payload : V) (ws : list bytes),
      request_frame c p msgType payload = Ok ws ->
      encode_writes c payload ((counter p + 1) mod 2 ^ 64) ws) /\
  (forall {V} (c : BalancedCodec V) (p : Processor) (requestID : Z) (msgType : string)
          (payload : V) (ws : list bytes),
      fst (Reply c p requestID msgType payload) = Ok ws ->
      encode_writes c payload requestID ws) /\
  (forall (h1 d1 h2 d2 : bytes),
      length h1 = 21%nat -> length h2 = 21%nat ->
      interleave [h1; d1] [h2; d2] [h1; h2; d1; d2] /\
      slice 21 21 (concat [h1; h2; d1; d2]) = h2).
Proof.
  split; [|split; [|split]].
  - intros V c p msgType payload ws. unfold Send.
    destruct (ensure_type p msgType) as [[tid|e] p'];
      cbn [fst]; [|discriminate].
    apply Encode_writes.
  - intros V c p msgType payload ws. unfold request_frame, StartRequest.
    destruct (ensure_type _ msgType) as [[tid|e] p']; [|discriminate].
    apply Encode_writes.
  - intros V c p requestID msgType payload ws. unfold Reply.
    destruct (ensure_type p msgType) as [[tid|e] p'];
      cbn [fst]; [|discriminate].
    apply Encode_writes.
  - intros h1 d1 h2 d2 L1 L2. split.
    + apply il_left, il_right, il_left, il_right, il_nil.
    + unfold slice. cbn [concat].
      replace 21%nat with (length h1) at 2 by exact L1.
      rewrite skipn_app, drop_all, Nat.sub_diag. cbn [skipn app drop].
      rewrite <- L2. apply take_app_length.
Qed.

Lemma Send_separate_writes_may_interleave_witness :
  encode_writes bin_codec [1] 0
    (match fst (Send bin_codec proc0 "a" [1]) with Ok ws => ws | Err _ => [] end) /\
  encode_writes bin_codec [1] ((counter proc0 + 1) mod 2 ^ 64)
    (match request_frame bin_codec proc0 "a" [1] with Ok ws => ws | Err _ => [] end) /\
  encode_writes bin_codec [1] 7
    (match fst (Reply bin_codec proc0 7 "a" [1]) with Ok ws => ws | Err _ => [] end).
Proof.
  split; [|split].
  - apply (proj1 Send_separate_writes_may_interleave bytes bin_codec proc0 "a" [1]).
    vm_compute. reflexivity.
  - apply (proj1 (proj2 Send_separate_writes_may_interleave) bytes bin_codec proc0 "a" [1]).
    vm_compute. reflexivity.
  - apply (proj1 (proj2 (proj2 Send_separate_writes_may_interleave))
             bytes bin_codec proc0 7 "a" [1]).
    vm_compute. reflexivity.
Defined.

(* ===================================================================== *)
(** ** Codec round trip *)
(* ===================================================================== *)

(** C2 (counterexample): two frames within the size limit that do not come
    back as they were encoded. Extensions force the [Extended] flag, so
    flags [0] come back as [8]; and a TLV with an empty value is read as
    the sentinel, so the extension list comes back empty and the real
    sentinel and the payload are returned as payload. *)
Lemma codec_roundtrip_fails :
  (exists ws, EncodeWithFlags bin_codec (fnv32a "ping") [7] 1 0 [mkTLV 1 1 [9]] = Ok ws /\
     DecodeWithFlags bin_codec (concat ws)
     = Ok (fnv32a "ping", [7], 1, 8, [mkTLV 1 1 [9]], [])) /\
  (exists ws, EncodeWithFlags bin_codec (fnv32a "ping") [7] 1 8 [mkTLV 1 0 []] = Ok ws /\
     DecodeWithFlags bin_codec (concat ws)
     = Ok (fnv32a "ping", [0; 0; 0; 7], 1, 8, [], [])).
Proof. split; eexists; split; vm_compute; reflexivity. Qed.

(** C2 (amended): for a type name, a request id, a 4-bit flag set (the
    valid subset included), well-formed extensions with non-empty values,
    and a frame below 16 MiB, decoding the encoded bytes (followed by any
    further bytes) gives back the FNV-1a-32 id of the name, the request id,
    the flags with [Extended] added when extensions are present, the same
    extension list in order, the rest of the stream untouched, and a
    payload that deserializes to the original value. The serializer and the
    encryptor, when present, are assumed to invert themselves. The case of
    [Extended] set with no extensions is not covered. *)
Theorem codec_roundtrip {V} (c : BalancedCodec V) (name : string) (payload : V)
    (requestID flags : Z) (extensions : list TLV) (ws : list bytes) (rest : bytes) :
  (forall (v : V) (d : bytes),
      Serialize (serializer c) v = Ok d -> Deserialize (serializer c) d = Ok v) ->
  (forall (e : Encryptor) (m ct : bytes),
      encryptor c = Some e -> Encrypt e m = Ok ct -> Decrypt e ct = Ok m) ->
  0 <= requestID < 2 ^ 64 ->
  0 <= flags < 16 ->
  Forall tlv_ok extensions ->
  (extensions = [] -> Z.land flags BalancedFlagExtended = 0) ->
  EncodeWithFlags c (fnv32a name) payload requestID flags extensions = Ok ws ->
  Z.of_nat (length (concat ws)) < MaxMessageSize ->
  exists data,
    DecodeWithFlags c (concat ws ++ rest)
    = Ok (fnv32a name, data, requestID,
          match extensions with [] => flags | _ => Z.lor flags BalancedFlagExtended end,
          extensions, rest) /\
    Deserialize (serializer c) data = Ok payload.
Proof.
  intros Hser Henc Hr Hf Hok Hnil Hencode Hlen.
  apply EncodeWithFlags_writes in Hencode as (data0 & data & Hs & Hd & Hm & ->).
  rewrite concat_writes in *. rewrite <- !app_assoc.
  rewrite !length_app, length_encode_header in Hlen.
  change (Z.to_nat BalancedHeaderSize) with 21%nat in Hlen.
  rewrite (DecodeWithFlags_encoded c flags (fnv32a name) requestID extensions data rest)
    by (auto using fnv32a_range; unfold BalancedHeaderSize; lia).
  assert (Hland : Z.land (match extensions with
                          | [] => flags
                          | _ => Z.lor flags BalancedFlagExtended
                          end) BalancedFlagEncrypted = Z.land flags BalancedFlagEncrypted).
  { destruct extensions; [reflexivity|apply flags_extended_range; exact Hf]. }
  rewrite Hland.
  destruct (negb (Z.land flags BalancedFlagEncrypted =? 0)).
  - destruct (encryptor c) as [e|] eqn:He; [|discriminate].
    rewrite (Henc e data0 data eq_refl Hd). cbn [bind].
    exists data0. split; [reflexivity|]. apply Hser. exact Hs.
  - injection Hd as <-. cbn [bind].
    exists data0. split; [reflexivity|]. apply Hser. exact Hs.
Qed.

Lemma codec_roundtrip_witness :
  exists data,
    DecodeWithFlags bin_codec
      (concat (match EncodeWithFlags bin_codec (fnv32a "ping") [7] 1 0 [mkTLV 1 1 [9]] with
               | Ok ws => ws | Err _ => [] end) ++ [5])
    = Ok (fnv32a "ping", data, 1, 8, [mkTLV 1 1 [9]], [5]) /\
    Deserialize (serializer bin_codec) data = Ok [7].
Proof.
  apply (codec_roundtrip bin_codec "ping" [7] 1 0 [mkTLV 1 1 [9]]).
  - intros v d H. injection H as <-. reflexivity.
  - intros e m ct H. discriminate.
  - lia.
  - lia.
  - constructor; [|constructor].
    unfold tlv_ok; cbn [tlv_Type tlv_Length tlv_Value length Z.of_nat]. lia.
  - discriminate.
  - vm_compute. reflexivity.
  - vm_compute. reflexivity.
Defined.

(** A frame of exactly [MaxMessageSize] bytes passes the encoder's
    [totalLength > MaxMessageSize] check, but its 24-bit length field
    wraps to 0 and the decoder rejects it. *)
Lemma encode_max_size_frame_unreadable (data : bytes) :
  Z.of_nat (length data) = MaxMessageSize - BalancedHeaderSize ->
  exists ws,
    EncodeWithFlags bin_codec 1 data 1 BalancedFlagNone [] = Ok ws /\
    get_be (slice 5 3 (hd [] ws)) = 0 /\
    DecodeWithFlags bin_codec (concat ws) = Err ErrInvalidLength.
Proof.
  intros Hl. unfold EncodeWithFlags. cbn -[encode_header length].
  assert (E1 : negb (Z.land BalancedFlagNone BalancedFlagEncrypted =? 0) = false)
    by reflexivity.
  rewrite E1. cbn [bind]. rewrite Hl.
  assert (E2 : (MaxMessageSize <? BalancedHeaderSize + Z.of_nat (length (@nil Z))
                                  + (MaxMessageSize - BalancedHeaderSize)) = false)
    by reflexivity.
  rewrite E2.
  eexists. split; [reflexivity|]. split; [reflexivity|].
  cbn [concat app]. rewrite ?app_nil_r.
  unfold DecodeWithFlags.
  rewrite (read_full_app (Z.to_nat BalancedHeaderSize)) by apply length_encode_header.
  reflexivity.
Qed.

(** With [Extended] set and no extensions the encoder writes no extension
    region, while the decoder reads one: the payload is taken for TLVs. *)
Example encode_extended_flag_without_extensions :
  exists ws,
    EncodeWithFlags bin_codec 1 [7] 1 BalancedFlagExtended [] = Ok ws /\
    DecodeWithFlags bin_codec (concat ws) = Err ErrUnexpectedEOF.
Proof. eexists; split; vm_compute; reflexivity. Qed.

(* ===================================================================== *)
(** ** Frame layout *)
(* ===================================================================== *)

(** C1 (counterexample): an empty-payload frame has a 21-byte header and
    declares a total length of 21, not 20 + 0 + 0. *)
Lemma frame_header_not_20 :
  exists header data,
    Encode bin_codec 1 [] 1 = Ok [header; data] /\
    length header = 21%nat /\ data = [] /\
    get_be (slice 5 3 header) = 21 /\ get_be (slice 5 3 header) <> 20 + 0 + 0.
Proof.
  eexists _, _. split; [vm_compute; reflexivity|].
  split; [reflexivity|]. split; [reflexivity|]. split; [reflexivity|]. discriminate.
Qed.

(** C1 (amended): every encoded frame starts with a 21-byte header
    ([BalancedHeaderSize]): the magic; the version/flags byte
    [(BalancedVersion << 4) | flags], with [Extended] added when there are
    extensions, whose high nibble is the version and low nibble the flags
    for a 4-bit flag set; the 24-bit length; the request id and the type
    id as their [uint64] and [uint32] values; and one zero byte. The
    header is followed by the extension region and the payload, which is
    the serialized payload, encrypted when [Encrypted] is set. Below
    16 MiB its declared total length is 21 + |extension region| +
    |payload|. The decoder reads exactly 21 header bytes and rejects a
    declared total length below 21 with [InvalidLength]. *)
Theorem frame_header_21 :
  (forall {V} (c : BalancedCodec V) (typeID : Z) (payload : V) (requestID flags : Z)
          (extensions : list TLV) (ws : list bytes),
      EncodeWithFlags c typeID payload requestID flags extensions = Ok ws ->
      exists header data,
        concat ws = header ++ ext_region extensions ++ data /\
        length header = 21%nat /\
        get_be (slice 0 4 header) = MagicNumber /\
        nth 4 header 0
        = to_byte (Z.lor (Z.shiftl BalancedVersion 4)
                     (match extensions with
                      | [] => flags
                      | _ => Z.lor flags BalancedFlagExtended
                      end)) /\
        (0 <= flags < 16 ->
         Z.shiftr (nth 4 header 0) 4 = BalancedVersion /\
         Z.land (nth 4 header 0) 15
         = match extensions with
           | [] => flags
           | _ => Z.lor flags BalancedFlagExtended
           end) /\
        get_be (slice 8 8 header) = requestID mod 2 ^ 64 /\
        get_be (slice 16 4 header) = typeID mod 2 ^ 32 /\
        nth 20 header 0 = 0 /\
        (exists data0,
           Serialize (serializer c) payload = Ok data0 /\
           (if negb (Z.land flags BalancedFlagEncrypted =? 0)
            then exists e, encryptor c = Some e /\ Encrypt e data0 = Ok data
            else data = data0)) /\
        Z.of_nat (length (concat ws))
        = 21 + Z.of_nat (length (ext_region extensions)) + Z.of_nat (length data) /\
        (Z.of_nat (length (concat ws)) < MaxMessageSize ->
         get_be (slice 5 3 header) = Z.of_nat (length (concat ws)))) /\
  (forall {V} (c : BalancedCodec V) (header rest : bytes),
      length header = 21%nat ->
      get_be (slice 0 4 header) = MagicNumber ->
      Z.shiftr (nth 4 header 0) 4 = BalancedVersion ->
      get_be (slice 5 3 header) < 21 ->
      DecodeWithFlags c (header ++ rest) = Err ErrInvalidLength).
Proof.
  split.
  - intros V c typeID payload requestID flags extensions ws H.
    apply EncodeWithFlags_writes in H as (data0 & data & Hs & Hd & _ & ->).
    rewrite concat_writes.
    eexists _, data. split; [reflexivity|].
    split; [apply length_encode_header|].
    split; [reflexivity|]. split; [reflexivity|].
    split.
    { intros Hf. apply version_flags_byte.
      destruct extensions; [exact Hf|apply flags_extended_range; exact Hf]. }
    split.
    { change (slice 8 8 (encode_header _ _ requestID typeID)) with (put_be 8 requestID).
      rewrite get_be_put_be. reflexivity. }
    split.
    { change (slice 16 4 (encode_header _ _ requestID typeID)) with (put_be 4 typeID).
      rewrite get_be_put_be. reflexivity. }
    split; [reflexivity|].
    split.
    { exists data0. split; [exact Hs|].
      destruct (negb (Z.land flags BalancedFlagEncrypted =? 0)).
      - destruct (encryptor c) as [e|]; [|discriminate]. exists e. auto.
      - injection Hd as <-. reflexivity. }
    assert (Hlen : Z.of_nat (length (encode_header
                     match extensions with
                     | [] => flags
                     | _ :: _ => Z.lor flags BalancedFlagExtended
                     end
                     (BalancedHeaderSize + Z.of_nat (length (ext_region extensions))
                      + Z.of_nat (length data)) requestID typeID
                   ++ ext_region extensions ++ data))
                 = 21 + Z.of_nat (length (ext_region extensions))
                   + Z.of_nat (length data)).
    { rewrite !length_app, length_encode_header.
      change (Z.to_nat BalancedHeaderSize) with 21%nat. lia. }
    split; [exact Hlen|].
    intros Hmax. rewrite Hlen.
    assert (E5 : forall f t r i, slice 5 3 (encode_header f t r i) = put_be 3 t)
      by (intros; rewrite put_be_3; reflexivity).
    rewrite E5, get_be_put_be_small.
    + unfold BalancedHeaderSize; lia.
    + change (2 ^ (8 * Z.of_nat 3)) with 16777216.
      unfold MaxMessageSize in Hmax. unfold BalancedHeaderSize. lia.
  - intros V c header rest Hl Hm Hv Ht.
    unfold DecodeWithFlags.
    rewrite (read_full_app (Z.to_nat BalancedHeaderSize)) by exact Hl.
    cbn [bind]. unfold parse_header. cbv zeta.
    rewrite Hm, Z.eqb_refl, Hv. cbn [negb].
    rewrite (proj2 (Z.ltb_lt _ BalancedHeaderSize)) by (unfold BalancedHeaderSize; lia).
    reflexivity.
Qed.

Lemma frame_header_21_witness :
  (exists ws,
     EncodeWithFlags bin_codec 1 [7] 1 0 [mkTLV 1 1 [9]] = Ok ws /\
     exists header data,
       concat ws = header ++ ext_region [mkTLV 1 1 [9]] ++ data /\
       length header = 21%nat /\
       get_be (slice 0 4 header) = MagicNumber /\
       nth 4 header 0
       = to_byte (Z.lor (Z.shiftl BalancedVersion 4)
                    (match [mkTLV 1 1 [9]] with
                     | [] => 0
                     | _ => Z.lor 0 BalancedFlagExtended
                     end)) /\
       (0 <= 0 < 16 ->
        Z.shiftr (nth 4 header 0) 4 = BalancedVersion /\
        Z.land (nth 4 header 0) 15
        = match [mkTLV 1 1 [9]] with
          | [] => 0
          | _ => Z.lor 0 BalancedFlagExtended
          end) /\
       get_be (slice 8 8 header) = 1 mod 2 ^ 64 /\
       get_be (slice 16 4 header) = 1 mod 2 ^ 32 /\
       nth 20 header 0 = 0 /\
       (exists data0,
          Serialize (serializer bin_codec) [7] = Ok data0 /\
          (if negb (Z.land 0 BalancedFlagEncrypted =? 0)
           then exists e, encryptor bin_codec = Some e /\ Encrypt e data0 = Ok data
           else data = data0)) /\
       Z.of_nat (length (concat ws))
       = 21 + Z.of_nat (length (ext_region [mkTLV 1 1 [9]])) + Z.of_nat (length data) /\
       (Z.of_nat (length (concat ws)) < MaxMessageSize ->
        get_be (slice 5 3 header) = Z.of_nat (length (concat ws)))) /\
  DecodeWithFlags bin_codec (([67; 72; 80; 77; 32; 0; 0; 20] ++ repeat 0 13) ++ [1])
  = Err ErrInvalidLength.
Proof.
  split.
  - eexists. split; [vm_compute; reflexivity|].
    apply (proj1 frame_header_21 bytes bin_codec 1 [7] 1 0 [mkTLV 1 1 [9]]).
    vm_compute. reflexivity.
  - apply (proj2 frame_header_21 bytes bin_codec); reflexivity.
Defined.

(** C10: when the declared total length is smaller than the fixed header
    plus the extension region parsed from the stream, [DecodeWithFlags]
    returns [InvalidMessageFormat] and reads no payload. *)
Theorem DecodeWithFlags_short_total {V} (c : BalancedCodec V) (s header s1 : bytes)
    (flags totalLength requestID typeID : Z) (extensions : list TLV) (extLen : Z)
    (s2 : bytes) :
  read_full (Z.to_nat BalancedHeaderSize) s = Ok (header, s1) ->
  parse_header header = Ok (flags, totalLength, requestID, typeID) ->
  read_extensions flags s1 = Ok (extensions, extLen, s2) ->
  totalLength < BalancedHeaderSize + extLen ->
  DecodeWithFlags c s = Err ErrInvalidMessageFormat.
Proof.
  intros Hh Hp Hx Hlt.
  unfold DecodeWithFlags. rewrite Hh. cbn [bind]. rewrite Hp. cbn [bind].
  rewrite Hx. cbn [bind].
  rewrite (proj2 (Z.ltb_lt _ 0)) by lia. reflexivity.
Qed.

(** A frame declaring 21 bytes but carrying a one-byte TLV. *)
Definition short_frame : bytes :=
  [67; 72; 80; 77; 40; 0; 0; 21] ++ repeat 0 13 ++ [1; 0; 1; 9; 0; 0; 0].

Lemma DecodeWithFlags_short_total_witness :
  read_full (Z.to_nat BalancedHeaderSize) short_frame
  = Ok (firstn 21 short_frame, skipn 21 short_frame) /\
  parse_header (firstn 21 short_frame) = Ok (8, 21, 0, 0) /\
  read_extensions 8 (skipn 21 short_frame) = Ok ([mkTLV 1 1 [9]], 7, []) /\
  DecodeWithFlags bin_codec short_frame = Err ErrInvalidMessageFormat.
Proof.
  split; [reflexivity|]. split; [reflexivity|]. split; [reflexivity|].
  apply (DecodeWithFlags_short_total bin_codec short_frame (firstn 21 short_frame)
           (skipn 21 short_frame) 8 21 0 0 [mkTLV 1 1 [9]] 7 []);
    [reflexivity | reflexivity | reflexivity | unfold BalancedHeaderSize; lia].
Defined.

(* ===================================================================== *)
(** ** The Encrypted flag *)
(* ===================================================================== *)

(** A Go [interface{}] payload as [BinarySerializer.Serialize] sees it:
    a [[]byte] or a value of another dynamic type. *)
Inductive AnyPayload :=
| PBytes (b : bytes)
| POther.

Definition ErrInvalidPayloadType : error :=
  ErrOther "invalid payload type for binary serializer".

(** [BinarySerializer] over [interface{}] payloads. *)
Definition BinarySerializerAny : Serializer AnyPayload :=
  mkSerializer (fun p => match p with
                         | PBytes b => Ok b
                         | POther => Err ErrInvalidPayloadType
                         end)
               (fun b => Ok (PBytes b)).

(** C8 (counterexample): the serializer runs before the Encrypted check,
    so a payload it refuses yields the serializer's error, not
    [EncryptionFailed], even with no encryptor configured. *)
Lemma encrypted_no_encryptor_serializer_error_first :
  EncodeWithFlags (NewBalancedCodec BinarySerializerAny) 1 POther 1
    BalancedFlagEncrypted [] = Err ErrInvalidPayloadType /\
  ErrInvalidPayloadType <> ErrEncryptionFailed.
Proof. split; [reflexivity | discriminate]. Qed.

(** C8 (amended): with the Encrypted flag set and a payload that the
    serializer accepts, [EncodeWithFlags] fails with [EncryptionFailed]
    and writes nothing if no encryptor is configured. If an encryptor is
    configured, an error of [Encrypt] is returned as is. On success the
    last write is [Encrypt] of the serialized bytes. On ingress, once the
    header, the extensions and the payload have been read, a frame with the
    Encrypted flag fails with [DecryptionFailed] without an encryptor.
    With an encryptor, the payload returned is [Decrypt] of the bytes read,
    and an error of [Decrypt] is returned as is. *)
Theorem encrypted_flag_handling :
  (forall {V} (c : BalancedCodec V) (typeID : Z) (payload : V) (requestID flags : Z)
          (extensions : list TLV) (data : bytes),
      Z.land flags BalancedFlagEncrypted <> 0 ->
      Serialize (serializer c) payload = Ok data ->
      (encryptor c = None ->
       EncodeWithFlags c typeID payload requestID flags extensions
       = Err ErrEncryptionFailed) /\
      (forall e err, encryptor c = Some e -> Encrypt e data = Err err ->
       EncodeWithFlags c typeID payload requestID flags extensions = Err err) /\
      (forall e ws, encryptor c = Some e ->
       EncodeWithFlags c typeID payload requestID flags extensions = Ok ws ->
       exists data' pre, Encrypt e data = Ok data' /\ ws = pre ++ [data'])) /\
  (forall {V} (c : BalancedCodec V) (s header s1 s2 s3 payload : bytes)
          (flags totalLength requestID typeID extLen : Z) (extensions : list TLV),
      read_full (Z.to_nat BalancedHeaderSize) s = Ok (header, s1) ->
      parse_header header = Ok (flags, totalLength, requestID, typeID) ->
      Z.land flags BalancedFlagEncrypted <> 0 ->
      read_extensions flags s1 = Ok (extensions, extLen, s2) ->
      0 <= totalLength - BalancedHeaderSize - extLen ->
      read_full (Z.to_nat (totalLength - BalancedHeaderSize - extLen)) s2
        = Ok (payload, s3) ->
      DecodeWithFlags c s
      = match encryptor c with
        | None => Err ErrDecryptionFailed
        | Some e => p <- Decrypt e payload ;;
                    Ok (typeID, p, requestID, flags, extensions, s3)
        end).
Proof.
  split.
  - intros V c typeID payload requestID flags extensions data Hf Hs.
    assert (Hb : (Z.land flags BalancedFlagEncrypted =? 0) = false)
      by (apply Z.eqb_neq; exact Hf).
    split; [|split].
    + intros Hn. unfold EncodeWithFlags. rewrite Hs. cbn [bind].
      rewrite Hb, Hn. reflexivity.
    + intros e err Hn He. unfold EncodeWithFlags. rewrite Hs. cbn [bind].
      rewrite Hb, Hn, He. reflexivity.
    + intros e ws Hn Hw.
      apply EncodeWithFlags_writes in Hw as (data0 & data1 & Hs' & He & _ & ->).
      rewrite Hs in Hs'. injection Hs' as <-.
      rewrite Hb, Hn in He. cbn [negb] in He.
      exists data1. eexists. split; [exact He|].
      rewrite app_assoc. reflexivity.
  - intros V c s header s1 s2 s3 payload flags totalLength requestID typeID extLen
      extensions Hh Hp Hf Hx Hn Hr.
    assert (Hb : (Z.land flags BalancedFlagEncrypted =? 0) = false)
      by (apply Z.eqb_neq; exact Hf).
    unfold DecodeWithFlags. rewrite Hh. cbn [bind]. rewrite Hp. cbn [bind].
    rewrite Hx. cbn [bind].
    rewrite (proj2 (Z.ltb_ge _ 0)) by lia. rewrite Hr. cbn [bind].
    rewrite Hb. cbn [negb]. destruct (encryptor c); reflexivity.
Qed.

(** An encryptor that prepends one byte and strips it back. *)
Definition toy_encryptor : Encryptor :=
  mkEncryptor (fun d => Ok (0 :: d))
              (fun d => match d with [] => Err ErrDecryptionFailed | _ :: t => Ok t end).

Definition toy_codec : BalancedCodec bytes := mkCodec BinarySerializer (Some toy_encryptor).

(** An encrypted frame: flags 2, total length 24, ciphertext [0;5;6]. *)
Definition encrypted_frame : bytes :=
  [67; 72; 80; 77; 34; 0; 0; 24] ++ repeat 0 13 ++ [0; 5; 6].

Lemma encrypted_flag_handling_witness :
  (Z.land BalancedFlagEncrypted BalancedFlagEncrypted <> 0 /\
   Serialize (serializer toy_codec) [5; 6] = Ok [5; 6] /\
   exists data' pre,
     Encrypt toy_encryptor [5; 6] = Ok data' /\
     match EncodeWithFlags toy_codec 1 [5; 6] 1 BalancedFlagEncrypted [] with
     | Ok ws => ws | Err _ => [] end = pre ++ [data']) /\
  (read_full (Z.to_nat BalancedHeaderSize) encrypted_frame
     = Ok (firstn 21 encrypted_frame, [0; 5; 6]) /\
   parse_header (firstn 21 encrypted_frame) = Ok (2, 24, 0, 0) /\
   read_extensions 2 [0; 5; 6] = Ok ([], 0, [0; 5; 6]) /\
   DecodeWithFlags toy_codec encrypted_frame = Ok (0, [5; 6], 0, 2, [], [])).
Proof.
  split.
  - split; [discriminate|]. split; [reflexivity|].
    apply (proj1 encrypted_flag_handling bytes toy_codec 1 [5; 6] 1
             BalancedFlagEncrypted [] [5; 6]);
      [discriminate | reflexivity | reflexivity | vm_compute; reflexivity].
  - split; [reflexivity|]. split; [reflexivity|]. split; [reflexivity|].
    rewrite (proj2 encrypted_flag_handling bytes toy_codec encrypted_frame
               (firstn 21 encrypted_frame) [0; 5; 6] [0; 5; 6] [] [0; 5; 6]
               2 24 0 0 0 []);
      [reflexivity | reflexivity | reflexivity | discriminate | reflexivity
      | unfold BalancedHeaderSize; lia | reflexivity].
Defined.

(* ===================================================================== *)
(** ** AES-GCM encryptor *)
(* ===================================================================== *)

Lemma read_full_length (n : nat) (s l r : bytes) :
  read_full n s = Ok (l, r) -> length l = n.
Proof.
  unfold read_full. destruct (Nat.eqb_spec n 0) as [->|Hn].
  - intros H. injection H as <- _. reflexivity.
  - destruct s as [|b s']; [discriminate|].
    destruct (Nat.ltb_spec (length (b :: s')) n) as [_|Hle]; [discriminate|].
    intros H. injection H as <- _. rewrite length_firstn. lia.
Qed.

(** C9: for a GCM whose [Open] inverts [Seal] under every nonce of the
    nonce size, a key of 16, 24 or 32 bytes gives an AES encryptor, and
    [Decrypt] returns [m] on every ciphertext that [Encrypt] produced from
    [m]. Any other key length fails with [InvalidKey]. *)
Theorem AES_roundtrip (lib : GCMLib) :
  (forall key gcm nonce m,
     lib key = Ok gcm -> length nonce = gcm_NonceSize gcm ->
     gcm_Open gcm nonce (gcm_Seal gcm nonce m) = Ok m) ->
  forall key : bytes,
    ((length key = 16 \/ length key = 24 \/ length key = 32)%nat ->
     exists enc, NewAESEncryptor key = Ok enc /\
       forall rnd m ct, AES_Encrypt lib enc rnd m = Ok ct ->
                        AES_Decrypt lib enc ct = Ok m) /\
    (~ (length key = 16 \/ length key = 24 \/ length key = 32)%nat ->
     NewAESEncryptor key = Err ErrInvalidKey).
Proof.
  intros Hgcm key. split.
  - intros Hk. exists (mkAESEncryptor key). split.
    + unfold NewAESEncryptor.
      destruct Hk as [H|[H|H]]; rewrite H; reflexivity.
    + intros rnd m ct Henc. unfold AES_Encrypt in Henc.
      destruct (lib (aes_key (mkAESEncryptor key))) as [gcm|e] eqn:Hl;
        cbn [bind] in Henc; [|discriminate].
      destruct (read_full (gcm_NonceSize gcm) rnd) as [[nonce r]|e] eqn:Hr;
        cbn [bind] in Henc; [|discriminate].
      injection Henc as <-.
      apply read_full_length in Hr.
      unfold AES_Decrypt. rewrite Hl. cbn [bind].
      rewrite <- Hr, length_app.
      rewrite (proj2 (Nat.ltb_ge _ _)) by lia.
      rewrite firstn_app, firstn_all, Nat.sub_diag, firstn_O, app_nil_r.
      rewrite skipn_app, skipn_all, Nat.sub_diag, skipn_O, app_nil_l.
      apply (Hgcm _ _ _ _ Hl Hr).
  - intros Hk. unfold NewAESEncryptor.
    destruct (Nat.eqb_spec (length key) 16); [exfalso; tauto|].
    destruct (Nat.eqb_spec (length key) 24); [exfalso; tauto|].
    destruct (Nat.eqb_spec (length key) 32); [exfalso; tauto|].
    reflexivity.
Qed.

(** A GCM stand-in with a 12-byte nonce whose [Seal] is the identity. *)
Definition toy_gcm_lib : GCMLib :=
  fun _ => Ok (mkGCM 12 (fun _ m => m) (fun _ c => Ok c)).

Lemma AES_roundtrip_witness :
  (exists enc, NewAESEncryptor (repeat 7 16) = Ok enc /\
     forall rnd m ct, AES_Encrypt toy_gcm_lib enc rnd m = Ok ct ->
                      AES_Decrypt toy_gcm_lib enc ct = Ok m) /\
  NewAESEncryptor (repeat 7 20) = Err ErrInvalidKey.
Proof.
  split.
  - apply (AES_roundtrip toy_gcm_lib); [|left; reflexivity].
    intros key gcm nonce m Hl _. unfold toy_gcm_lib in Hl.
    injection Hl as <-. reflexivity.
  - apply (AES_roundtrip toy_gcm_lib).
    + intros key gcm nonce m Hl _. unfold toy_gcm_lib in Hl.
      injection Hl as <-. reflexivity.
    + cbn. lia.
Defined.

(* ===================================================================== *)
(** ** Further properties: the type registry *)
(* ===================================================================== *)

(** The two maps of a [Registry] agree: every name is stored under its
    FNV-1a-32 hash, and the reverse map is its exact inverse. *)
Definition reg_inv (r : Registry) : Prop :=
  (forall n h, nameToID r !! n = Some h -> h = fnv32a n /\ idToName r !! h = Some n) /\
  (forall h n, idToName r !! h = Some n -> nameToID r !! n = Some h).

Lemma reg_inv_insert (r : Registry) (n : string) :
  reg_inv r ->
  (idToName r !! fnv32a n = None \/ idToName r !! fnv32a n = Some n) ->
  reg_inv (mkRegistry (<[n := fnv32a n]> (nameToID r)) (<[fnv32a n := n]> (idToName r))).
Proof.
  intros [H1 H2] Hfree. split; cbn.
  - intros m h Hm. apply lookup_insert_Some in Hm as [[<- <-]|[Hne Hm]].
    + split; [reflexivity|]. apply lookup_insert_eq.
    + destruct (H1 _ _ Hm) as [-> Hi]. split; [reflexivity|].
      apply lookup_insert_Some. right. split; [|exact Hi].
      intros Heq. rewrite Heq in Hfree. rewrite Hi in Hfree.
      destruct Hfree as [Hf|Hf]; [discriminate|]. injection Hf as ->. contradiction.
  - intros h m Hm. apply lookup_insert_Some in Hm as [[<- <-]|[Hne Hm]].
    + apply lookup_insert_eq.
    + pose proof (H2 _ _ Hm) as Hn.
      apply lookup_insert_Some. right. split; [|exact Hn].
      intros <-. destruct (H1 _ _ Hn) as [-> _]. contradiction.
Qed.

Lemma reg_inv_NewRegistry : reg_inv NewRegistry.
Proof. split; intros ? ? H; cbn in H; rewrite lookup_empty in H; discriminate. Qed.

Lemma reg_inv_Register (r : Registry) (n : string) :
  reg_inv r -> reg_inv (snd (Register r n)).
Proof.
  intros Hinv. unfold Register. cbv zeta.
  destruct (idToName r !! fnv32a n) as [existing|] eqn:E.
  - destruct (String.eqb_spec existing n) as [->|Hne]; cbn [snd].
    + apply reg_inv_insert; auto.
    + exact Hinv.
  - apply reg_inv_insert; auto.
Qed.

(** A fresh registry is consistent, and [Register] keeps it consistent
    whether it succeeds or fails. *)
Theorem Register_keeps_maps_consistent :
  reg_inv NewRegistry /\
  (forall (r : Registry) (n : string) (res : result Z) (r' : Registry),
      reg_inv r -> Register r n = (res, r') -> reg_inv r').
Proof.
  split; [exact reg_inv_NewRegistry|].
  intros r n res r' Hinv H.
  pose proof (reg_inv_Register r n Hinv) as Hr. rewrite H in Hr. exact Hr.
Qed.

Lemma Register_keeps_maps_consistent_witness :
  reg_inv (snd (Register NewRegistry "ping")).
Proof.
  apply (proj2 Register_keeps_maps_consistent NewRegistry "ping"
           (fst (Register NewRegistry "ping"))).
  - exact (proj1 Register_keeps_maps_consistent).
  - reflexivity.
Defined.

(** After a successful [Register] on a consistent registry, [GetID] and
    [GetName] map the name and its hash to each other, and every name and
    id registered before is still mapped as it was: the registry only
    grows. *)
Theorem Register_then_lookup (r : Registry) (n : string) (h : Z) (r' : Registry) :
  reg_inv r -> Register r n = (Ok h, r') ->
  h = fnv32a n /\ GetID r' n = Some h /\ GetName r' h = Some n /\
  (forall m x, GetID r m = Some x -> GetID r' m = Some x) /\
  (forall i m, GetName r i = Some m -> GetName r' i = Some m).
Proof.
  intros [H1 H2] H.
  assert (Hfree : idToName r !! fnv32a n = None \/ idToName r !! fnv32a n = Some n).
  { unfold Register in H. cbv zeta in H.
    destruct (idToName r !! fnv32a n) as [existing|] eqn:E.
    - destruct (String.eqb_spec existing n) as [->|]; [right; reflexivity|discriminate].
    - left; reflexivity. }
  apply Register_ok_shape in H as [-> ->].
  unfold GetID, GetName; cbn.
  split; [reflexivity|]. split; [apply lookup_insert_eq|].
  split; [apply lookup_insert_eq|]. split.
  - intros m x Hm. apply lookup_insert_Some.
    destruct (String.eq_dec n m) as [<-|Hne]; [left|right; auto].
    destruct (H1 _ _ Hm) as [-> _]. auto.
  - intros i m Hm. apply lookup_insert_Some.
    destruct (Z.eq_dec (fnv32a n) i) as [<-|Hne]; [left|right; auto].
    rewrite Hm in Hfree. destruct Hfree as [Hf|Hf]; [discriminate|].
    injection Hf as ->. auto.
Qed.

Lemma Register_then_lookup_witness :
  reg_inv (snd (Register NewRegistry "ping")) /\
  Register (snd (Register NewRegistry "ping")) "pong"
  = (Ok (fnv32a "pong"), snd (Register (snd (Register NewRegistry "ping")) "pong")) /\
  (fnv32a "pong" = fnv32a "pong" /\
   GetID (snd (Register (snd (Register NewRegistry "ping")) "pong")) "pong"
     = Some (fnv32a "pong") /\
   GetName (snd (Register (snd (Register NewRegistry "ping")) "pong")) (fnv32a "pong")
     = Some "pong" /\
   (forall m x, GetID (snd (Register NewRegistry "ping")) m = Some x ->
                GetID (snd (Register (snd (Register NewRegistry "ping")) "pong")) m
                = Some x) /\
   (forall i m, GetName (snd (Register NewRegistry "ping")) i = Some m ->
                GetName (snd (Register (snd (Register NewRegistry "ping")) "pong")) i
                = Some m)).
Proof.
  assert (Hinv : reg_inv (snd (Register NewRegistry "ping")))
    by exact (reg_inv_Register NewRegistry "ping" reg_inv_NewRegistry).
  assert (Hr : Register (snd (Register NewRegistry "ping")) "pong"
               = (Ok (fnv32a "pong"),
                  snd (Register (snd (Register NewRegistry "ping")) "pong")))
    by (vm_compute; reflexivity).
  split; [exact Hinv|]. split; [exact Hr|].
  exact (Register_then_lookup _ "pong" (fnv32a "pong") _ Hinv Hr).
Defined.

(* ===================================================================== *)
(** ** Further properties: handlers and middleware *)
(* ===================================================================== *)

(** [Handler func(Context) error] and [Middleware func(Handler) Handler]. *)
Definition Handler := Context -> result unit.
Definition Middleware := Handler -> Handler.

(** The processor's [handlers] map and [middlewares] slice. *)
Record Handlers := mkHandlers {
  handlers : gmap string Handler;
  middlewares : list Middleware
}.

Definition ErrHandlerNotFound : error := ErrOther "no handler for message type".

(** [processor.RegisterHandler]: register the type, then wrap the handler
    by [for i := len(p.middlewares) - 1; i >= 0; i--], then store it. *)
Definition RegisterHandler (p : Processor) (hs : Handlers) (msgType : string)
    (handler : Handler) : result unit * Processor * Handlers :=
  let '(r, reg) := Register (typeRegistry p) msgType in
  let p := set_registry p reg in
  match r with
  | Err e => (Err e, p, hs)
  | Ok _ =>
      let handler := fold_left (fun h m => m h) (rev (middlewares hs)) handler in
      (Ok tt, p, mkHandlers (<[msgType := handler]> (handlers hs)) (middlewares hs))
  end.

(** [processor.Use]: [append(p.middlewares, middleware)]. *)
Definition Use (hs : Handlers) (m : Middleware) : Handlers :=
  mkHandlers (handlers hs) (middlewares hs ++ [m]).

(** [processor.dispatchMessage]. *)
Definition dispatchMessage (hs : Handlers) (msgType : string) (ctx : Context)
    : result unit :=
  match handlers hs !! msgType with
  | None => Err ErrHandlerNotFound
  | Some handler => handler ctx
  end.

(** After [RegisterHandler] succeeds, dispatching that type runs
    [middlewares[0](middlewares[1](... (handler)))]: the middleware added
    first with [Use] is the outermost. A middleware added later with [Use]
    does not wrap the handler already registered, and the handlers of the
    other types are unchanged. *)
Theorem RegisterHandler_middleware_order (p : Processor) (hs : Handlers)
    (msgType : string) (handler : Handler) (p' : Processor) (hs' : Handlers) :
  RegisterHandler p hs msgType handler = (Ok tt, p', hs') ->
  (forall ctx, dispatchMessage hs' msgType ctx
               = fold_right (fun m h => m h) handler (middlewares hs) ctx) /\
  (forall m ctx, dispatchMessage (Use hs' m) msgType ctx
                 = dispatchMessage hs' msgType ctx) /\
  (forall t ctx, t <> msgType -> dispatchMessage hs' t ctx = dispatchMessage hs t ctx).
Proof.
  unfold RegisterHandler.
  destruct (Register (typeRegistry p) msgType) as [[id|e] reg].
  2: { intros H; discriminate. }
  intros H. injection H as _ <-.
  unfold dispatchMessage; cbn.
  split; [|split].
  - intros ctx.
    pose proof (fold_left_rev_right (fun (m : Middleware) h => m h)
                  (rev (middlewares hs)) handler) as Hf.
    rewrite rev_involutive in Hf.
    rewrite lookup_insert_eq. exact (f_equal (fun g : Handler => g ctx) (eq_sym Hf)).
  - reflexivity.
  - intros t ctx Hne. rewrite lookup_insert_ne by congruence. reflexivity.
Qed.

(** Two middlewares that each record their position in the context's raw
    data, around a handler that fails with that record. *)
Definition tag_mw (k : Z) : Middleware :=
  fun next ctx => next (mkContext (ctx_msgType ctx) (ctx_requestID ctx)
                                  (ctx_rawData ctx ++ [k])).
Definition report_handler : Handler :=
  fun ctx => if decide (ctx_rawData ctx = [1; 2]) then Ok tt
             else Err ErrInvalidMessageFormat.

Definition hs_two : Handlers := Use (Use (mkHandlers ∅ []) (tag_mw 1)) (tag_mw 2).

Lemma RegisterHandler_middleware_order_witness :
  exists p' hs',
    RegisterHandler proc0 hs_two "ping" report_handler = (Ok tt, p', hs') /\
    dispatchMessage hs' "ping" (mkContext "ping" 0 []) = Ok tt.
Proof.
  pose (p' := snd (fst (RegisterHandler proc0 hs_two "ping" report_handler))).
  pose (hs' := snd (RegisterHandler proc0 hs_two "ping" report_handler)).
  assert (H : RegisterHandler proc0 hs_two "ping" report_handler = (Ok tt, p', hs'))
    by (vm_compute; reflexivity).
  exists p', hs'. split; [exact H|].
  rewrite (proj1 (RegisterHandler_middleware_order _ _ _ _ _ _ H)).
  reflexivity.
Defined.

(* ===================================================================== *)
(** ** Further properties: request ids *)
(* ===================================================================== *)

(** [k] successive calls of [StartRequest], with the ids they return. *)
Fixpoint start_requests (p : Processor) (k : nat) : list Z * Processor :=
  match k with
  | O => ([], p)
  | S k' =>
      let '(requestID, _, p1) := StartRequest p in
      let '(ids, p2) := start_requests p1 k' in
      (requestID :: ids, p2)
  end.

(** From a counter [c] with [c + k < 2^64], [k] successive [StartRequest]
    calls return the ids [c+1, ..., c+k]: distinct and non-zero. Each of
    them is pending afterwards with its own channel, the other pending
    entries are untouched, and the counter ends at [c+k]. *)
Theorem StartRequest_sequential_ids (p : Processor) (k : nat) :
  0 <= counter p -> counter p + Z.of_nat k < 2 ^ 64 ->
  fst (start_requests p k) = map (fun i => counter p + Z.of_nat i) (seq 1 k) /\
  counter (snd (start_requests p k)) = counter p + Z.of_nat k /\
  (forall j, counter p < j <= counter p + Z.of_nat k ->
             pending (snd (start_requests p k)) !! j = Some j) /\
  (forall j, ~ (counter p < j <= counter p + Z.of_nat k) ->
             pending (snd (start_requests p k)) !! j = pending p !! j).
Proof.
  revert p. induction k as [|k IH]; intros p H0 Hk.
  - cbn. split; [reflexivity|]. split; [lia|]. split; [intros; lia|]. reflexivity.
  - cbn [start_requests]. unfold StartRequest.
    rewrite (Z.mod_small (counter p + 1)) by lia.
    set (p1 := mkProcessor (typeRegistry p) (counter p + 1)
                 (<[counter p + 1 := counter p + 1]> (pending p))
                 (MessageSizeLimit p) (cancelled p)).
    destruct (IH p1) as (Hids & Hc & Hin & Hout); [cbn; lia|cbn; lia|].
    destruct (start_requests p1 k) as [ids p2]. cbn in Hids, Hc, Hin, Hout |- *.
    split; [|split; [|split]].
    + rewrite Hids. cbn [seq map]. f_equal; try lia.
      rewrite <- (seq_shift k 1), map_map.
      apply map_ext. intros i. lia.
    + lia.
    + intros j Hj. destruct (Z.eq_dec j (counter p + 1)) as [->|Hne].
      * rewrite Hout by lia. apply lookup_insert_eq.
      * apply Hin. lia.
    + intros j Hj. rewrite Hout by lia. apply lookup_insert_ne. lia.
Qed.

Lemma StartRequest_sequential_ids_witness :
  fst (start_requests proc0 3) = [1; 2; 3].
Proof.
  rewrite (proj1 (StartRequest_sequential_ids proc0 3 ltac:(cbn; lia) ltac:(cbn; lia))).
  reflexivity.
Defined.



(* ===================================================================== *)
(** ** Further properties: the read loop *)
(* ===================================================================== *)

(** What the read loop may change: only entries of [pending] are
    removed. *)
Definition listen_step_ok (p p' : Processor) : Prop :=
  typeRegistry p' = typeRegistry p /\ counter p' = counter p /\
  MessageSizeLimit p' = MessageSizeLimit p /\ cancelled p' = cancelled p /\
  (forall j ch, pending p' !! j = Some ch -> pending p !! j = Some ch).

Definition delivered_from (p p' : Processor) (effs : list Effect) : Prop :=
  forall ch resp, In (Delivered ch resp) effs ->
    pending p !! resp_requestID resp = Some ch /\
    pending p' !! resp_requestID resp = None.

Lemma listen_frame_inv (p : Processor) (fr : Frame) (effs : list Effect) (p' : Processor) :
  listen_frame p fr = (effs, p') -> listen_step_ok p p' /\ delivered_from p p' effs.
Proof.
  destruct fr as [[typeID rawData] requestID]. cbn [listen_frame].
  assert (Hrefl : listen_step_ok p p) by (repeat split; auto).
  destruct (GetName (typeRegistry p) typeID) as [msgType|].
  2: { intros H; injection H as <- <-. split; [exact Hrefl|intros ? ? []]. }
  destruct ((0 <? MessageSizeLimit p) && (MessageSizeLimit p <? Z.of_nat (length rawData))).
  { intros H; injection H as <- <-. split; [exact Hrefl|intros ? ? []]. }
  destruct (0 <? requestID).
  2: { intros H; injection H as <- <-. split; [exact Hrefl|].
       intros ? ? [H|[]]; discriminate. }
  unfold IsPending. destruct (pending p !! requestID) as [ch|] eqn:E.
  2: { intros H; injection H as <- <-. split; [exact Hrefl|].
       intros ? ? [H|[]]; discriminate. }
  intros H; injection H as <- <-. split.
  - repeat split; auto. intros j ch' Hj. cbn in Hj.
    apply lookup_delete_Some in Hj as [_ Hj]. exact Hj.
  - intros ch' resp [H|[]]. injection H as <- <-. cbn.
    split; [exact E|apply lookup_delete_eq].
Qed.

(** Over any run, [Listen] leaves the type registry, the id counter, the
    size limit and the cancellation flag as they were, and never adds a
    pending request: it only removes entries. Every response it delivers
    goes to the channel pending for its request id when the loop started,
    and that id is no longer pending at the end. *)
Theorem Listen_only_removes_pending (p : Processor) (decoded : list (result Frame))
    (o : ListenOutcome) (p' : Processor) (effs : list Effect) :
  Listen p decoded = (o, p', effs) ->
  listen_step_ok p p' /\ delivered_from p p' effs.
Proof.
  revert p o p' effs. induction decoded as [|d rest IH]; intros p o p' effs H.
  - cbn in H. injection H as _ <- <-.
    split; [repeat split; auto|intros ? ? []].
  - cbn [Listen] in H.
    destruct (cancelled p).
    { injection H as _ <- <-. split; [repeat split; auto|intros ? ? []]. }
    destruct d as [fr|e].
    2: { destruct (isRecoverableError e); [exact (IH _ _ _ _ H)|].
         injection H as _ <- <-. split; [repeat split; auto|intros ? ? []]. }
    destruct (listen_frame p fr) as [effs1 p1] eqn:Hf.
    destruct (Listen p1 rest) as [[o2 p2] effs2] eqn:Hl.
    injection H as <- <- <-.
    destruct (listen_frame_inv _ _ _ _ Hf) as [(Hr1 & Hc1 & Hm1 & Hx1 & Hp1) Hd1].
    destruct (IH _ _ _ _ Hl) as [(Hr2 & Hc2 & Hm2 & Hx2 & Hp2) Hd2].
    split.
    + repeat split; try congruence. intros j ch Hj. apply Hp1, Hp2, Hj.
    + intros ch resp Hin. apply in_app_or in Hin as [Hin|Hin].
      * destruct (Hd1 _ _ Hin) as [Ha Hb]. split; [exact Ha|].
        destruct (pending p2 !! resp_requestID resp) eqn:E; [|reflexivity].
        apply Hp2 in E. congruence.
      * destruct (Hd2 _ _ Hin) as [Ha Hb]. split; [apply Hp1, Ha|exact Hb].
Qed.

Lemma Listen_only_removes_pending_witness :
  listen_step_ok proc_waiting
    (snd (fst (Listen proc_waiting [Ok (fnv32a "pong", [7], 1); Err ErrEOF]))) /\
  delivered_from proc_waiting
    (snd (fst (Listen proc_waiting [Ok (fnv32a "pong", [7], 1); Err ErrEOF])))
    (snd (Listen proc_waiting [Ok (fnv32a "pong", [7], 1); Err ErrEOF])).
Proof.
  apply (Listen_only_removes_pending proc_waiting
           [Ok (fnv32a "pong", [7], 1); Err ErrEOF]
           (fst (fst (Listen proc_waiting [Ok (fnv32a "pong", [7], 1); Err ErrEOF])))).
  destruct (Listen proc_waiting [Ok (fnv32a "pong", [7], 1); Err ErrEOF])
    as [[o p'] effs]. reflexivity.
Defined.

(** [Listen] returns an error only when a decode error is not recoverable
    (its message is [EOF] or [connection reset by peer]), and that error
    came from the decoder. If every decode error is recoverable, the loop
    of a processor that was not closed never returns. A closed processor
    returns [nil] at the next iteration, before decoding anything. *)
Theorem Listen_returns_only_fatal_errors (p : Processor) (decoded : list (result Frame)) :
  (forall e p' effs, Listen p decoded = (Returned (Some e), p', effs) ->
     isRecoverableError e = false /\ In (Err e) decoded) /\
  (cancelled p = false ->
   Forall (fun d => match d with Ok _ => True | Err e => isRecoverableError e = true end)
          decoded ->
   fst (fst (Listen p decoded)) = StillListening) /\
  (cancelled p = true -> decoded <> [] -> Listen p decoded = (Returned None, p, [])).
Proof.
  split; [|split].
  - revert p. induction decoded as [|d rest IH]; intros p e p' effs H;
      cbn [Listen] in H; [discriminate|].
    destruct (cancelled p); [discriminate|].
    destruct d as [fr|e'].
    + destruct (listen_frame p fr) as [effs1 p1] eqn:Hf.
      destruct (Listen p1 rest) as [[o2 p2] effs2] eqn:Hl.
      injection H as -> _ _.
      destruct (IH p1 e p2 effs2 Hl) as [Hr Hin]. split; [exact Hr|right; exact Hin].
    + destruct (isRecoverableError e') eqn:Er.
      * destruct (IH p e p' effs H) as [Hr Hin]. split; [exact Hr|right; exact Hin].
      * injection H as -> _ _. split; [exact Er|left; reflexivity].
  - intros Hc Hall. revert p Hc. induction Hall as [|d rest Hd Hall IH]; intros p Hc;
      [reflexivity|].
    cbn [Listen]. rewrite Hc. destruct d as [fr|e].
    + destruct (listen_frame p fr) as [effs1 p1] eqn:Hf.
      destruct (listen_frame_inv _ _ _ _ Hf) as [(_ & _ & _ & Hx & _) _].
      specialize (IH p1 ltac:(congruence)).
      destruct (Listen p1 rest) as [[o2 p2] effs2]. exact IH.
    + rewrite Hd. apply IH, Hc.
  - intros Hc Hne. destruct decoded as [|d rest]; [contradiction|].
    cbn [Listen]. rewrite Hc. reflexivity.
Qed.

Lemma Listen_returns_only_fatal_errors_witness :
  isRecoverableError ErrEOF = false /\ In (Err ErrEOF) [@Err Frame ErrInvalidMagic; Err ErrEOF] /\
  fst (fst (Listen proc0 [Err ErrInvalidMagic; Ok (1, [], 0)])) = StillListening /\
  Listen (mkProcessor NewRegistry 0 ∅ 0 true) [Err ErrInvalidMagic]
  = (Returned None, mkProcessor NewRegistry 0 ∅ 0 true, []).
Proof.
  split; [|split; [|split]].
  - apply (proj1 (Listen_returns_only_fatal_errors proc0
                    [Err ErrInvalidMagic; Err ErrEOF]) ErrEOF proc0 []).
    reflexivity.
  - apply (proj1 (Listen_returns_only_fatal_errors proc0
                    [Err ErrInvalidMagic; Err ErrEOF]) ErrEOF proc0 []).
    reflexivity.
  - apply (proj1 (proj2 (Listen_returns_only_fatal_errors proc0
                           [Err ErrInvalidMagic; Ok (1, [], 0)]))).
    + reflexivity.
    + repeat constructor.
  - apply (proj2 (proj2 (Listen_returns_only_fatal_errors
                           (mkProcessor NewRegistry 0 ∅ 0 true) [Err ErrInvalidMagic]))).
    + reflexivity.
    + discriminate.
Defined.

(* ===================================================================== *)
(** ** Further properties: decoding a byte stream *)
(* ===================================================================== *)

Lemma read_full_split (n : nat) (s l r : bytes) :
  read_full n s = Ok (l, r) -> s = l ++ r /\ length l = n.
Proof.
  unfold read_full. destruct (Nat.eqb_spec n 0) as [->|Hn].
  - intros H. injection H as <- <-. split; reflexivity.
  - destruct s as [|b s']; [discriminate|].
    destruct (Nat.ltb_spec (length (b :: s')) n) as [_|Hle]; [discriminate|].
    intros H. injection H as <- <-.
    split; [symmetry; apply firstn_skipn|rewrite length_firstn; lia].
Qed.

Lemma get_be_bound (l : bytes) :
  bytes_ok l -> 0 <= get_be l < 2 ^ (8 * Z.of_nat (length l)).
Proof.
  induction l as [|b l IH] using rev_ind; intros Hok.
  - cbn. lia.
  - apply Forall_app in Hok as [Hl Hb]. inversion Hb as [|? ? Hb' _]; subst.
    unfold byte_ok in Hb'. specialize (IH Hl).
    rewrite get_be_snoc, length_app. cbn [length].
    replace (8 * Z.of_nat (length l + 1)) with (8 * Z.of_nat (length l) + 8) by lia.
    rewrite Z.pow_add_r by lia. change (2 ^ 8) with 256. nia.
Qed.

Lemma bytes_ok_slice (i n : nat) (l : bytes) : bytes_ok l -> bytes_ok (slice i n l).
Proof. intros H. unfold slice. apply Forall_take, Forall_drop, H. Qed.

Lemma length_slice (i n : nat) (l : bytes) :
  (i + n <= length l)%nat -> length (slice i n l) = n.
Proof. intros H. unfold slice. rewrite length_firstn, length_skipn. lia. Qed.

Lemma read_tlvs_split (fuel : nat) (s : bytes) (exts : list TLV) (extLen : Z) (s2 : bytes) :
  bytes_ok s -> read_tlvs fuel s = Ok (exts, extLen, s2) ->
  exists pre, s = pre ++ s2 /\ Z.of_nat (length pre) = extLen /\ Forall tlv_ok exts.
Proof.
  revert s exts extLen s2. induction fuel as [|fuel IH]; intros s exts extLen s2 Hok H;
    cbn [read_tlvs] in H; [discriminate|].
  destruct (read_full 3 s) as [[h s1]|e] eqn:E1; cbn [bind] in H; [|discriminate].
  apply read_full_split in E1 as [-> Hh].
  apply Forall_app in Hok as [Hokh Hok1].
  destruct h as [|a [|b [|c [|? ?]]]]; try discriminate Hh. clear Hh.
  inversion Hokh as [|? ? Ha Hokh']; subst. inversion Hokh' as [|? ? Hb Hokh'']; subst.
  inversion Hokh'' as [|? ? Hc _]; subst. unfold byte_ok in Ha, Hb, Hc.
  change (nth 0 [a; b; c] 0) with a in H.
  change (get_be (slice 1 2 [a; b; c])) with ((0 * 256 + b) * 256 + c) in H.
  destruct (Z.eqb_spec ((0 * 256 + b) * 256 + c) 0) as [Hz|Hz].
  - injection H as <- <- <-. exists [a; b; c]. split; [reflexivity|].
    split; [reflexivity|constructor].
  - destruct (read_full (Z.to_nat ((0 * 256 + b) * 256 + c)) s1) as [[v s1']|e] eqn:E2;
      cbn [bind] in H; [|discriminate].
    apply read_full_split in E2 as [-> Hv].
    apply Forall_app in Hok1 as [Hokv Hok1'].
    destruct (read_tlvs fuel s1') as [[[rest extLen'] s3]|e] eqn:E3;
      cbn [bind] in H; [|discriminate].
    injection H as <- <- <-.
    destruct (IH _ _ _ _ Hok1' E3) as (pre & -> & Hl & Hf).
    exists ([a; b; c] ++ v ++ pre). split; [rewrite <- !app_assoc; reflexivity|].
    split.
    + rewrite !length_app, !Nat2Z.inj_add, Hv, Hl. cbn [length]. lia.
    + constructor; [|exact Hf]. unfold tlv_ok; cbn. rewrite Hv. lia.
Qed.

Lemma parse_header_ok (h : bytes) (f t r i : Z) :
  parse_header h = Ok (f, t, r, i) ->
  f = Z.land (nth 4 h 0) 15 /\ t = get_be (slice 5 3 h) /\ BalancedHeaderSize <= t /\
  r = get_be (slice 8 8 h) /\ i = get_be (slice 16 4 h).
Proof.
  unfold parse_header. cbv zeta.
  destruct (negb (get_be (slice 0 4 h) =? MagicNumber)); [discriminate|].
  destruct (negb (Z.shiftr (nth 4 h 0) 4 =? BalancedVersion)); [discriminate|].
  destruct (Z.ltb_spec (get_be (slice 5 3 h)) BalancedHeaderSize) as [_|Hle]; cbn [orb];
    [discriminate|].
  destruct (MaxMessageSize <? get_be (slice 5 3 h)); [discriminate|].
  intros H. injection H as <- <- <- <-. repeat split; auto.
Qed.

Lemma slice_app_l (i n : nat) (l tail : bytes) :
  (i + n <= length l)%nat -> slice i n (l ++ tail) = slice i n l.
Proof.
  intros H. unfold slice. rewrite skipn_app, firstn_app, length_skipn.
  replace (n - (length l - i))%nat with 0%nat by lia.
  rewrite firstn_O, app_nil_r. reflexivity.
Qed.

(** A successful [DecodeWithFlags] on a byte stream consumes exactly one
    frame: the stream is the frame followed by the rest it returns, and the
    frame is as long as the total length its header declares. The flags it
    returns fit in 4 bits, the request id in 64 bits and the type id in
    32 bits. Every extension it returns has a type byte and a non-empty
    value whose length is its [Length] field. *)
Theorem DecodeWithFlags_consumes_one_frame {V} (c : BalancedCodec V) (s : bytes)
    (typeID : Z) (payload : bytes) (requestID flags : Z) (extensions : list TLV)
    (rest : bytes) :
  bytes_ok s ->
  DecodeWithFlags c s = Ok (typeID, payload, requestID, flags, extensions, rest) ->
  exists frame, s = frame ++ rest /\
    Z.of_nat (length frame) = get_be (slice 5 3 frame) /\
    0 <= flags < 16 /\ 0 <= requestID < 2 ^ 64 /\ 0 <= typeID < 2 ^ 32 /\
    Forall tlv_ok extensions.
Proof.
  intros Hok H. unfold DecodeWithFlags in H.
  destruct (read_full (Z.to_nat BalancedHeaderSize) s) as [[h s1]|e] eqn:E1;
    cbn [bind] in H; [|discriminate].
  apply read_full_split in E1 as [-> Hh].
  change (Z.to_nat BalancedHeaderSize) with 21%nat in Hh.
  apply Forall_app in Hok as [Hokh Hok1].
  destruct (parse_header h) as [[[[f t] r] i]|e] eqn:E2; cbn [bind] in H; [|discriminate].
  apply parse_header_ok in E2 as (-> & -> & Ht & -> & ->).
  destruct (read_extensions (Z.land (nth 4 h 0) 15) s1) as [[[exts extLen] s2]|e] eqn:E3;
    cbn [bind] in H; [|discriminate].
  assert (Hx : exists pre, s1 = pre ++ s2 /\ Z.of_nat (length pre) = extLen /\
                           Forall tlv_ok exts).
  { unfold read_extensions in E3.
    destruct (negb (Z.land (Z.land (nth 4 h 0) 15) BalancedFlagExtended =? 0)).
    - exact (read_tlvs_split _ _ _ _ _ Hok1 E3).
    - injection E3 as <- <- <-. exists []. split; [reflexivity|]. split; constructor. }
  destruct Hx as (pre & -> & Hpre & Hexts).
  apply Forall_app in Hok1 as [_ Hok2].
  destruct (Z.ltb_spec (get_be (slice 5 3 h) - BalancedHeaderSize - extLen) 0);
    [discriminate|].
  destruct (read_full (Z.to_nat (get_be (slice 5 3 h) - BalancedHeaderSize - extLen)) s2)
    as [[pl s3]|e] eqn:E4; cbn [bind] in H; [|discriminate].
  apply read_full_split in E4 as [-> Hpl].
  destruct (if negb (Z.land (Z.land (nth 4 h 0) 15) BalancedFlagEncrypted =? 0) then _
            else _) as [pl'|e]; cbn [bind] in H; [|discriminate].
  injection H as <- _ <- <- <- <-.
  exists (h ++ pre ++ pl). split; [rewrite <- !app_assoc; reflexivity|].
  rewrite slice_app_l by lia.
  split; [|split; [|split; [|split]]].
  - rewrite !length_app, !Nat2Z.inj_add, Hh, Hpre, Hpl.
    unfold BalancedHeaderSize in *. lia.
  - change (Z.land (nth 4 h 0) 15) with (Z.land (nth 4 h 0) (Z.ones 4)).
    rewrite Z.land_ones by lia.
    pose proof (Z.mod_pos_bound (nth 4 h 0) (2 ^ 4) ltac:(lia)). lia.
  - pose proof (get_be_bound _ (bytes_ok_slice 8 8 _ Hokh)) as Hb.
    rewrite length_slice in Hb by lia. exact Hb.
  - pose proof (get_be_bound _ (bytes_ok_slice 16 4 _ Hokh)) as Hb.
    rewrite length_slice in Hb by lia. exact Hb.
  - exact Hexts.
Qed.

Lemma DecodeWithFlags_consumes_one_frame_witness :
  exists frame,
    encode_header 0 22 5 7 ++ [1; 9] = frame ++ [9] /\
    Z.of_nat (length frame) = get_be (slice 5 3 frame) /\
    0 <= 0 < 16 /\ 0 <= 5 < 2 ^ 64 /\ 0 <= 7 < 2 ^ 32 /\ Forall tlv_ok [].
Proof.
  apply (DecodeWithFlags_consumes_one_frame bin_codec (encode_header 0 22 5 7 ++ [1; 9])
           7 [1] 5 0 []).
  - unfold bytes_ok, byte_ok. apply (bool_decide_unpack _). vm_compute. reflexivity.
  - vm_compute. reflexivity.
Defined.

Lemma read_full_err (n : nat) (s : bytes) (e : error) :
  read_full n s = Err e -> e = ErrEOF \/ e = ErrUnexpectedEOF.
Proof.
  unfold read_full. destruct (n =? 0)%nat; [discriminate|].
  destruct s as [|b s']; [intros H; injection H as <-; auto|].
  destruct (length (b :: s') <? n)%nat; [intros H; injection H as <-; auto|discriminate].
Qed.

Lemma read_tlvs_err (fuel : nat) (s : bytes) (e : error) :
  read_tlvs fuel s = Err e -> e = ErrEOF \/ e = ErrUnexpectedEOF.
Proof.
  revert s. induction fuel as [|fuel IH]; intros s H; cbn [read_tlvs] in H.
  - injection H as <-. auto.
  - destruct (read_full 3 s) as [[h s1]|e'] eqn:E1; cbn [bind] in H;
      [|injection H as ->; exact (read_full_err _ _ _ E1)].
    destruct (get_be (slice 1 2 h) =? 0); [discriminate|].
    destruct (read_full (Z.to_nat (get_be (slice 1 2 h))) s1) as [[v s2]|e'] eqn:E2;
      cbn [bind] in H; [|injection H as ->; exact (read_full_err _ _ _ E2)].
    destruct (read_tlvs fuel s2) as [[[r l] s3]|e'] eqn:E3; cbn [bind] in H;
      [discriminate|injection H as ->; exact (IH _ E3)].
Qed.

(** How [DecodeWithFlags] rejects a stream before the extensions: [EOF]
    on an empty stream, [UnexpectedEOF] on 1 to 20 bytes, [InvalidMagic]
    on a wrong magic number, [UnsupportedVersion] on a version other than
    2. With no encryptor, [InvalidLength] comes only from a declared total
    length below 21: a 24-bit length field cannot exceed [MaxMessageSize],
    so the upper check never fires. *)
Theorem DecodeWithFlags_header_errors {V} (c : BalancedCodec V) :
  DecodeWithFlags c [] = Err ErrEOF /\
  (forall s, (0 < length s < 21)%nat -> DecodeWithFlags c s = Err ErrUnexpectedEOF) /\
  (forall s, (21 <= length s)%nat -> get_be (slice 0 4 s) <> MagicNumber ->
             DecodeWithFlags c s = Err ErrInvalidMagic) /\
  (forall s, (21 <= length s)%nat -> get_be (slice 0 4 s) = MagicNumber ->
             Z.shiftr (nth 4 s 0) 4 <> BalancedVersion ->
             DecodeWithFlags c s = Err ErrUnsupportedVersion) /\
  (forall s, encryptor c = None -> bytes_ok s ->
             DecodeWithFlags c s = Err ErrInvalidLength ->
             get_be (slice 5 3 s) < BalancedHeaderSize).
Proof.
  split; [reflexivity|]. split; [|split; [|split]].
  - intros s Hs. unfold DecodeWithFlags, read_full.
    destruct s as [|b s']; [cbn in Hs; lia|].
    rewrite (proj2 (Nat.ltb_lt _ _)) by (cbn [length] in *; change (Z.to_nat BalancedHeaderSize) with 21%nat; lia).
    reflexivity.
  - intros s Hs Hm.
    rewrite <- (firstn_skipn 21 s) in Hm |- *.
    rewrite slice_app_l in Hm by (rewrite length_firstn; lia).
    unfold DecodeWithFlags.
    rewrite (read_full_app (Z.to_nat BalancedHeaderSize))
      by (rewrite length_firstn; change (Z.to_nat BalancedHeaderSize) with 21%nat; lia).
    cbn [bind]. unfold parse_header. cbv zeta.
    rewrite (proj2 (Z.eqb_neq _ _) Hm). reflexivity.
  - intros s Hs Hm Hv.
    rewrite <- (firstn_skipn 21 s) in Hm, Hv |- *.
    rewrite slice_app_l in Hm by (rewrite length_firstn; lia).
    rewrite app_nth1 in Hv by (rewrite length_firstn; lia).
    unfold DecodeWithFlags.
    rewrite (read_full_app (Z.to_nat BalancedHeaderSize))
      by (rewrite length_firstn; change (Z.to_nat BalancedHeaderSize) with 21%nat; lia).
    cbn [bind]. unfold parse_header. cbv zeta.
    rewrite Hm, Z.eqb_refl, (proj2 (Z.eqb_neq _ _) Hv). reflexivity.
  - intros s Hn Hok H. unfold DecodeWithFlags in H.
    destruct (read_full (Z.to_nat BalancedHeaderSize) s) as [[h s1]|e] eqn:E1;
      cbn [bind] in H;
      [|injection H as ->; destruct (read_full_err _ _ _ E1); discriminate].
    apply read_full_split in E1 as [-> Hh].
    change (Z.to_nat BalancedHeaderSize) with 21%nat in Hh.
    apply Forall_app in Hok as [Hokh _].
    rewrite slice_app_l by lia.
    destruct (parse_header h) as [[[[f t] r] i]|e] eqn:E2; cbn [bind] in H.
    + destruct (read_extensions f s1) as [[[exts extLen] s2]|e] eqn:E3; cbn [bind] in H.
      * destruct (t - BalancedHeaderSize - extLen <? 0); [discriminate|].
        destruct (read_full (Z.to_nat (t - BalancedHeaderSize - extLen)) s2)
          as [[pl s3]|e] eqn:E4; cbn [bind] in H;
          [|injection H as ->; destruct (read_full_err _ _ _ E4); discriminate].
        rewrite Hn in H.
        destruct (negb (Z.land f BalancedFlagEncrypted =? 0)); discriminate.
      * injection H as ->. unfold read_extensions in E3.
        destruct (negb (Z.land f BalancedFlagExtended =? 0)); [|discriminate].
        destruct (read_tlvs_err _ _ _ E3); discriminate.
    + injection H as ->. unfold parse_header in E2. cbv zeta in E2.
      destruct (negb (get_be (slice 0 4 h) =? MagicNumber)); [discriminate|].
      destruct (negb (Z.shiftr (nth 4 h 0) 4 =? BalancedVersion)); [discriminate|].
      pose proof (get_be_bound _ (bytes_ok_slice 5 3 _ Hokh)) as Hb.
      rewrite length_slice in Hb by lia.
      change (2 ^ (8 * Z.of_nat 3)) with MaxMessageSize in Hb.
      destruct (Z.ltb_spec (get_be (slice 5 3 h)) BalancedHeaderSize) as [Hlt|_];
        [exact Hlt|].
      rewrite (proj2 (Z.ltb_ge MaxMessageSize _)) in E2 by lia. discriminate.
Qed.

Lemma DecodeWithFlags_header_errors_witness :
  DecodeWithFlags bin_codec [67] = Err ErrUnexpectedEOF /\
  DecodeWithFlags bin_codec (repeat 0 21) = Err ErrInvalidMagic /\
  DecodeWithFlags bin_codec ([67; 72; 80; 77; 48] ++ repeat 0 16) = Err ErrUnsupportedVersion /\
  get_be (slice 5 3 ([67; 72; 80; 77; 32; 0; 0; 20] ++ repeat 0 13)) < BalancedHeaderSize.
Proof.
  split; [|split; [|split]].
  - apply (proj1 (proj2 (DecodeWithFlags_header_errors bin_codec))). cbn. lia.
  - apply (proj1 (proj2 (proj2 (DecodeWithFlags_header_errors bin_codec)))).
    + cbn. lia.
    + vm_compute. discriminate.
  - apply (proj1 (proj2 (proj2 (proj2 (DecodeWithFlags_header_errors bin_codec))))).
    + cbn. lia.
    + vm_compute. reflexivity.
    + vm_compute. discriminate.
  - apply (proj2 (proj2 (proj2 (proj2 (DecodeWithFlags_header_errors bin_codec))))).
    + reflexivity.
    + unfold bytes_ok, byte_ok. apply (bool_decide_unpack _). vm_compute. reflexivity.
    + vm_compute. reflexivity.
Defined.

(* ===================================================================== *)
(** ** Further properties: a frame from one processor to another *)
(* ===================================================================== *)

Lemma Register_ok_free (r : Registry) (n : string) (h : Z) (r' : Registry) :
  Register r n = (Ok h, r') ->
  idToName r !! fnv32a n = None \/ idToName r !! fnv32a n = Some n.
Proof.
  unfold Register. cbv zeta.
  destruct (idToName r !! fnv32a n) as [existing|] eqn:E; [|auto].
  destruct (String.eqb_spec existing n) as [->|]; [auto|discriminate].
Qed.

Lemma ensure_type_ok (p : Processor) (msgType : string) (id : Z) (p' : Processor) :
  reg_inv (typeRegistry p) -> ensure_type p msgType = (Ok id, p') ->
  id = fnv32a msgType /\ GetID (typeRegistry p') msgType = Some id /\
  reg_inv (typeRegistry p') /\ pending p' = pending p /\ counter p' = counter p.
Proof.
  intros Hinv. unfold ensure_type.
  destruct (GetID (typeRegistry p) msgType) as [id'|] eqn:E.
  - intros H. injection H as <- <-.
    destruct ((proj1 Hinv) _ _ E) as [-> _]. auto.
  - destruct (Register (typeRegistry p) msgType) as [r reg] eqn:ER.
    intros H. injection H as -> <-.
    pose proof (Register_ok_free _ _ _ _ ER) as Hfree.
    apply Register_ok_shape in ER as [-> ->].
    cbn. split; [reflexivity|]. split; [apply lookup_insert_eq|].
    split; [apply reg_inv_insert; auto|]. auto.
Qed.

(** An [Encode]d frame (no flags, no extensions) decodes to its type id,
    its serialized payload and its request id. *)
Lemma Encode_then_Decode {V} (c : BalancedCodec V) (typeID : Z) (payload : V)
    (requestID : Z) (ws : list bytes) (data rest : bytes) :
  0 <= requestID < 2 ^ 64 -> 0 <= typeID < 2 ^ 32 ->
  Serialize (serializer c) payload = Ok data ->
  Encode c typeID payload requestID = Ok ws ->
  Z.of_nat (length (concat ws)) < MaxMessageSize ->
  Decode c (concat ws ++ rest) = Ok (typeID, data, requestID, rest).
Proof.
  intros Hr Hi Hs He Hlen. unfold Encode in He.
  apply EncodeWithFlags_writes in He as (data0 & data1 & Hs' & Hd & _ & ->).
  rewrite Hs in Hs'. injection Hs' as <-. cbn in Hd. injection Hd as <-.
  rewrite concat_writes in *. rewrite <- !app_assoc.
  rewrite !length_app, length_encode_header in Hlen.
  change (Z.to_nat BalancedHeaderSize) with 21%nat in Hlen.
  unfold Decode.
  rewrite (DecodeWithFlags_encoded c BalancedFlagNone typeID requestID [] data rest
             BalancedFlagNone
             (BalancedHeaderSize + Z.of_nat (length (ext_region []))
              + Z.of_nat (length data))); auto.
  - unfold BalancedFlagNone. lia.
  - unfold BalancedHeaderSize. cbn [ext_region length] in *. lia.
Qed.

(** On a consistent registry, a successful [Send] of [msgType] registers
    it under its FNV-1a hash. When the serialized payload is [data] and the
    frame is smaller than 16 MiB (a frame of exactly 16 MiB wraps its
    length field and does not decode), the bytes written decode to the
    hash, [data] and request id 0, leaving any following bytes unread. A
    receiver that is not closed, knows the name of that hash and whose
    [MessageSizeLimit] admits [data] dispatches it to a handler with
    request id 0, even when it has pending requests. *)
Theorem Send_dispatched_by_receiver {V} (c : BalancedCodec V) (p : Processor)
    (msgType : string) (payload : V) (ws : list bytes) (p' : Processor)
    (data rest : bytes) (q : Processor) :
  reg_inv (typeRegistry p) ->
  Send c p msgType payload = (Ok ws, p') ->
  Serialize (serializer c) payload = Ok data ->
  Z.of_nat (length (concat ws)) < MaxMessageSize ->
  cancelled q = false ->
  GetName (typeRegistry q) (fnv32a msgType) = Some msgType ->
  ((0 <? MessageSizeLimit q) && (MessageSizeLimit q <? Z.of_nat (length data))) = false ->
  GetID (typeRegistry p') msgType = Some (fnv32a msgType) /\
  Decode c (concat ws ++ rest) = Ok (fnv32a msgType, data, 0, rest) /\
  Listen q [Ok (fnv32a msgType, data, 0)]
  = (StillListening, q, [Dispatched (mkContext msgType 0 data)]).
Proof.
  intros Hinv H Hs Hlen Hc Hn Hsz. unfold Send in H.
  destruct (ensure_type p msgType) as [[id|e] p1] eqn:Ee; [|discriminate].
  injection H as He <-.
  destruct (ensure_type_ok _ _ _ _ Hinv Ee) as (-> & Hid & _).
  split; [exact Hid|]. split.
  - apply (Encode_then_Decode c _ payload); auto; [lia|apply fnv32a_range].
  - cbn [Listen listen_frame]. rewrite Hc, Hn, Hsz. cbn. rewrite ?app_nil_r. reflexivity.
Qed.

(** On a consistent registry, the bytes written by a successful [Reply]
    to request [requestID] (with [0 < requestID < 2^64]), whose frame is
    smaller than 16 MiB, decode with that id, the type's hash and the
    serialized payload [data]. A requester that is not closed, knows the
    reply's type name, whose [MessageSizeLimit] admits [data] and where
    [requestID] is pending delivers the response to the request's channel
    and removes the pending entry, instead of dispatching it. *)
Theorem Reply_delivered_to_requester {V} (c : BalancedCodec V) (p : Processor)
    (requestID : Z) (msgType : string) (payload : V) (ws : list bytes)
    (p' : Processor) (data rest : bytes) (q : Processor) (ch : chan) :
  reg_inv (typeRegistry p) ->
  0 < requestID < 2 ^ 64 ->
  Reply c p requestID msgType payload = (Ok ws, p') ->
  Serialize (serializer c) payload = Ok data ->
  Z.of_nat (length (concat ws)) < MaxMessageSize ->
  cancelled q = false ->
  GetName (typeRegistry q) (fnv32a msgType) = Some msgType ->
  ((0 <? MessageSizeLimit q) && (MessageSizeLimit q <? Z.of_nat (length data))) = false ->
  IsPending q requestID = Some ch ->
  Decode c (concat ws ++ rest) = Ok (fnv32a msgType, data, requestID, rest) /\
  Listen q [Ok (fnv32a msgType, data, requestID)]
  = (StillListening, CancelRequest q requestID,
     [Delivered ch (mkResponse msgType requestID data)]).
Proof.
  intros Hinv Hr H Hs Hlen Hc Hn Hsz Hp. unfold Reply in H.
  destruct (ensure_type p msgType) as [[id|e] p1] eqn:Ee; [|discriminate].
  injection H as He <-.
  destruct (ensure_type_ok _ _ _ _ Hinv Ee) as (-> & _).
  split.
  - apply (Encode_then_Decode c _ payload); auto; [lia|apply fnv32a_range].
  - cbn [Listen listen_frame]. rewrite Hc, Hn, Hsz.
    rewrite (proj2 (Z.ltb_lt 0 requestID)) by lia. rewrite Hp.
    cbn. rewrite ?app_nil_r. reflexivity.
Qed.

Definition proc_pong : Processor :=
  mkProcessor (snd (Register NewRegistry "pong")) 1 (<[1 := 1]> ∅) 0 false.

Lemma Send_dispatched_by_receiver_witness :
  GetID (typeRegistry (snd (Send bin_codec proc0 "pong" [7]))) "pong" = Some (fnv32a "pong") /\
  Decode bin_codec
    (concat (match fst (Send bin_codec proc0 "pong" [7]) with Ok ws => ws | Err _ => [] end)
     ++ [])
  = Ok (fnv32a "pong", [7], 0, []) /\
  Listen proc_pong [Ok (fnv32a "pong", [7], 0)]
  = (StillListening, proc_pong, [Dispatched (mkContext "pong" 0 [7])]).
Proof.
  apply (Send_dispatched_by_receiver bin_codec proc0 "pong" [7]).
  - exact reg_inv_NewRegistry.
  - vm_compute. reflexivity.
  - reflexivity.
  - vm_compute. reflexivity.
  - reflexivity.
  - vm_compute. reflexivity.
  - reflexivity.
Defined.

Lemma Reply_delivered_to_requester_witness :
  Decode bin_codec
    (concat (match fst (Reply bin_codec proc0 1 "pong" [7]) with
             | Ok ws => ws | Err _ => [] end) ++ [])
  = Ok (fnv32a "pong", [7], 1, []) /\
  Listen proc_pong [Ok (fnv32a "pong", [7], 1)]
  = (StillListening, CancelRequest proc_pong 1,
     [Delivered 1 (mkResponse "pong" 1 [7])]).
Proof.
  apply (Reply_delivered_to_requester bin_codec proc0 1 "pong" [7] _
           (snd (Reply bin_codec proc0 1 "pong" [7])) [7] [] proc_pong 1).
  - exact reg_inv_NewRegistry.
  - lia.
  - vm_compute. reflexivity.
  - reflexivity.
  - vm_compute. reflexivity.
  - reflexivity.
  - vm_compute. reflexivity.
  - reflexivity.
  - reflexivity.
Defined.

(* ===================================================================== *)
(** ** Further properties: flags outside the 4-bit field *)
(* ===================================================================== *)

(** [EncodeWithFlags] takes a [uint8] flags value but writes
    [(BalancedVersion << 4) | flags] into one byte. If bit 4 of [flags] is
    set, the frame it writes carries a version other than 2, and
    [DecodeWithFlags] rejects it with [UnsupportedVersion]. *)
Theorem EncodeWithFlags_bit4_unreadable {V} (c : BalancedCodec V) (typeID : Z)
    (payload : V) (requestID flags : Z) (extensions : list TLV) (ws : list bytes)
    (rest : bytes) :
  Z.testbit flags 4 = true ->
  EncodeWithFlags c typeID payload requestID flags extensions = Ok ws ->
  DecodeWithFlags c (concat ws ++ rest) = Err ErrUnsupportedVersion.
Proof.
  intros Hb H.
  apply EncodeWithFlags_writes in H as (data0 & data & _ & _ & _ & ->).
  rewrite concat_writes, <- !app_assoc.
  set (f' := match extensions with [] => flags | _ => Z.lor flags BalancedFlagExtended end).
  assert (Hf' : Z.testbit f' 4 = true).
  { subst f'. destruct extensions; [exact Hb|]. rewrite Z.lor_spec, Hb. reflexivity. }
  set (t := BalancedHeaderSize + Z.of_nat (length (ext_region extensions))
            + Z.of_nat (length data)).
  assert (Hv : Z.shiftr (to_byte (Z.lor (Z.shiftl BalancedVersion 4) f')) 4
               <> BalancedVersion).
  { intros Heq. pose proof (f_equal (fun x => Z.testbit x 0) Heq) as Hq. cbv beta in Hq.
    rewrite Z.shiftr_spec in Hq by lia. unfold to_byte in Hq.
    rewrite Z.land_spec, Z.lor_spec in Hq. change (0 + 4) with 4 in Hq.
    rewrite Hf' in Hq. cbn in Hq. discriminate. }
  unfold DecodeWithFlags.
  rewrite (read_full_app (Z.to_nat BalancedHeaderSize)) by apply length_encode_header.
  cbn [bind]. unfold parse_header. cbv zeta.
  assert (E0 : get_be (slice 0 4 (encode_header f' t requestID typeID)) = MagicNumber)
    by reflexivity.
  assert (E4 : nth 4 (encode_header f' t requestID typeID) 0
               = to_byte (Z.lor (Z.shiftl BalancedVersion 4) f')) by reflexivity.
  rewrite E0, Z.eqb_refl, E4, (proj2 (Z.eqb_neq _ _) Hv). reflexivity.
Qed.

Lemma EncodeWithFlags_bit4_unreadable_witness :
  DecodeWithFlags bin_codec
    (concat (match EncodeWithFlags bin_codec 1 [7] 1 16 [] with
             | Ok ws => ws | Err _ => [] end) ++ [])
  = Err ErrUnsupportedVersion.
Proof.
  apply (EncodeWithFlags_bit4_unreadable bin_codec 1 [7] 1 16 []).
  - reflexivity.
  - vm_compute. reflexivity.
Defined.

(* ===================================================================== *)
(** ** Further properties: the buffer pool *)
(* ===================================================================== *)

(** [BufferPool]: the [sync.Pool] contents and [size]. *)
Record BufferPool := mkBufferPool {
  pool : list bytes;
  size : nat
}.

(** [NewBufferPool]: an empty pool whose [New] is [make([]byte, size)]. *)
Definition NewBufferPool (size : nat) : BufferPool := mkBufferPool [] size.

(** [BufferPool.Put]: only a buffer of length [size] goes into the pool. *)
Definition Put (p : BufferPool) (buf : bytes) : BufferPool :=
  if (length buf =? size p)%nat then mkBufferPool (buf :: pool p) (size p) else p.

(** [BufferPool.Get]: [sync.Pool.Get] either hands out (and removes) some
    pooled item or calls [New]. *)
Inductive Get : BufferPool -> bytes -> BufferPool -> Prop :=
| Get_new p : Get p (repeat 0 (size p)) p
| Get_pooled p l1 b l2 :
    pool p = l1 ++ b :: l2 -> Get p b (mkBufferPool (l1 ++ l2) (size p)).

(** [sync.Pool] may drop any pooled item at any time. *)
Inductive Evict : BufferPool -> BufferPool -> Prop :=
| Evict_one p l1 b l2 :
    pool p = l1 ++ b :: l2 -> Evict p (mkBufferPool (l1 ++ l2) (size p)).

Inductive pool_op :=
| OpPut (buf : bytes)
| OpGet (out : bytes)
| OpEvict.

(** A run of operations on one pool. *)
Inductive pool_run : BufferPool -> list pool_op -> BufferPool -> Prop :=
| run_nil p : pool_run p [] p
| run_put p buf ops p' : pool_run (Put p buf) ops p' -> pool_run p (OpPut buf :: ops) p'
| run_get p b p1 ops p' : Get p b p1 -> pool_run p1 ops p' -> pool_run p (OpGet b :: ops) p'
| run_evict p p1 ops p' : Evict p p1 -> pool_run p1 ops p' -> pool_run p (OpEvict :: ops) p'.

Lemma pool_run_sized (p : BufferPool) (ops : list pool_op) (p' : BufferPool) :
  pool_run p ops p' ->
  Forall (fun b => length b = size p) (pool p) ->
  size p' = size p /\ Forall (fun b => length b = size p) (pool p') /\
  (forall b, In (OpGet b) ops -> length b = size p).
Proof.
  induction 1 as [p|p buf ops p' Hr IH|p b p1 ops p' Hg Hr IH|p p1 ops p' He Hr IH];
    intros Hinv.
  - split; [reflexivity|]. split; [exact Hinv|intros ? []].
  - assert (Hs : size (Put p buf) = size p)
      by (unfold Put; destruct (length buf =? size p)%nat; reflexivity).
    assert (Hi : Forall (fun b => length b = size (Put p buf)) (pool (Put p buf))).
    { rewrite Hs. unfold Put. destruct (Nat.eqb_spec (length buf) (size p)) as [E|E].
      - constructor; [exact E|exact Hinv].
      - exact Hinv. }
    destruct (IH Hi) as (H1 & H2 & H3). rewrite Hs in H1, H2, H3.
    split; [exact H1|]. split; [exact H2|].
    intros b [Hb|Hb]; [discriminate|exact (H3 _ Hb)].
  - assert (Hs : size p1 = size p /\ length b = size p /\
                 Forall (fun b => length b = size p) (pool p1)).
    { destruct Hg as [p|p l1 b' l2 Hp].
      - split; [reflexivity|]. split; [apply repeat_length|exact Hinv].
      - rewrite Hp in Hinv. apply Forall_app in Hinv as [H1 H2].
        inversion H2; subst. split; [reflexivity|]. split; [assumption|].
        apply Forall_app. auto. }
    destruct Hs as (Hs & Hb & Hi). rewrite <- Hs in Hi.
    destruct (IH Hi) as (H1 & H2 & H3). rewrite Hs in H1, H2, H3.
    split; [exact H1|]. split; [exact H2|].
    intros b' [Hb'|Hb']; [injection Hb' as <-; exact Hb|exact (H3 _ Hb')].
  - assert (Hs : size p1 = size p /\ Forall (fun b => length b = size p) (pool p1)).
    { destruct He as [p l1 b' l2 Hp].
      rewrite Hp in Hinv. apply Forall_app in Hinv as [H1 H2].
      inversion H2; subst. split; [reflexivity|]. apply Forall_app. auto. }
    destruct Hs as (Hs & Hi). rewrite <- Hs in Hi.
    destruct (IH Hi) as (H1 & H2 & H3). rewrite Hs in H1, H2, H3.
    split; [exact H1|]. split; [exact H2|].
    intros b' [Hb'|Hb']; [discriminate|exact (H3 _ Hb')].
Qed.

(** Whatever [Put]s (of buffers of any length), [Get]s and evictions have
    happened since [NewBufferPool size], every buffer [Get] returns has
    exactly [size] bytes. *)
Theorem BufferPool_Get_returns_size (n : nat) (ops : list pool_op) (p : BufferPool) :
  pool_run (NewBufferPool n) ops p ->
  forall b, In (OpGet b) ops -> length b = n.
Proof.
  intros Hr b Hb.
  exact (proj2 (proj2 (pool_run_sized _ _ _ Hr ltac:(constructor))) b Hb).
Qed.

Lemma BufferPool_Get_returns_size_witness :
  pool_run (NewBufferPool 2) [OpPut [1; 2; 3]; OpPut [4; 5]; OpGet [4; 5]; OpGet [0; 0]]
    (NewBufferPool 2) /\
  length [4; 5] = 2%nat.
Proof.
  assert (Hr : pool_run (NewBufferPool 2)
                 [OpPut [1; 2; 3]; OpPut [4; 5]; OpGet [4; 5]; OpGet [0; 0]]
                 (NewBufferPool 2)).
  { apply run_put. apply run_put.
    apply (run_get _ [4; 5] (mkBufferPool ([] ++ []) 2)).
    - apply (Get_pooled (Put (Put (NewBufferPool 2) [1; 2; 3]) [4; 5]) [] [4; 5] []).
      reflexivity.
    - apply (run_get _ [0; 0] (mkBufferPool [] 2)).
      + apply (Get_new (mkBufferPool [] 2)).
      + apply run_nil. }
  split; [exact Hr|].
  apply (BufferPool_Get_returns_size 2 _ _ Hr). right; right; left. reflexivity.
Defined.

(* ===================================================================== *)
(** ** Further properties: a failed request *)
(* ===================================================================== *)

(** Whenever [Request] returns an error (type conflict, encode or write
    error, or timeout), the request id it allocated is no longer pending. *)
Theorem Request_error_not_pending {V} (c : BalancedCodec V) (RequestTimeout : nat)
    (p : Processor) (msgType : string) (payload : V) (now : nat) (tr : Transport)
    (t : nat) (e : error) (p' : Processor) :
  Request c RequestTimeout p msgType payload now tr = (t, Err e, p') ->
  IsPending p' ((counter p + 1) mod 2 ^ 64) = None.
Proof.
  unfold Request, StartRequest. cbv zeta.
  set (id := (counter p + 1) mod 2 ^ 64).
  set (p1 := mkProcessor (typeRegistry p) id (<[id:=id]> (pending p))
                         (MessageSizeLimit p) (cancelled p)).
  destruct (ensure_type p1 msgType) as [[tid|e'] p2].
  2: { intros H. injection H as _ _ <-. apply lookup_delete_eq. }
  destruct (Encode c tid payload id) as [ws|e'].
  2: { intros H. injection H as _ _ <-. apply lookup_delete_eq. }
  destruct (write_error tr) as [e'|].
  { intros H. injection H as _ _ <-. apply lookup_delete_eq. }
  destruct (reply_at tr) as [[ta resp]|].
  - destruct (ta <? now + write_duration tr + RequestTimeout)%nat.
    + discriminate.
    + intros H. injection H as _ _ <-. apply lookup_delete_eq.
  - intros H. injection H as _ _ <-. apply lookup_delete_eq.
Qed.

Lemma Request_error_not_pending_witness :
  IsPending (snd (Request bin_codec 10 proc0 "ping" [7] 0 (mkTransport 1 None None))) 1
  = None.
Proof.
  apply (Request_error_not_pending bin_codec 10 proc0 "ping" [7] 0 (mkTransport 1 None None)
           11 ErrRequestTimeout).
  vm_compute. reflexivity.
Defined.

(* ===================================================================== *)
(** ** Further properties: a stream of frames *)
(* ===================================================================== *)

(** The results of successive [p.codec.Decode(p.conn)] calls on one
    connection, up to and including the first error. *)
Fixpoint decode_stream {V} (fuel : nat) (c : BalancedCodec V) (s : bytes)
    : list (result Frame) :=
  match fuel with
  | O => []
  | S fuel' =>
      match Decode c s with
      | Ok (typeID, payload, requestID, rest) =>
          Ok (typeID, payload, requestID) :: decode_stream fuel' c rest
      | Err e => [Err e]
      end
  end.

(** The bytes [Encode] writes for one [[]byte] message, if it succeeds. *)
Definition encoded_bytes (m : Frame) : bytes :=
  let '(typeID, data, requestID) := m in
  match Encode bin_codec typeID data requestID with
  | Ok ws => concat ws
  | Err _ => []
  end.

Definition frame_fits (m : Frame) : Prop :=
  let '(typeID, data, requestID) := m in
  0 <= typeID < 2 ^ 32 /\ 0 <= requestID < 2 ^ 64 /\
  BalancedHeaderSize + Z.of_nat (length data) < MaxMessageSize.

Lemma Encode_bin_ok (typeID : Z) (data : bytes) (requestID : Z) :
  BalancedHeaderSize + Z.of_nat (length data) < MaxMessageSize ->
  exists ws, Encode bin_codec typeID data requestID = Ok ws /\
             Z.of_nat (length (concat ws)) = BalancedHeaderSize + Z.of_nat (length data).
Proof.
  intros H. unfold Encode, EncodeWithFlags. cbn [bind serializer bin_codec
    NewBalancedCodec BinarySerializer Serialize].
  change (negb (Z.land BalancedFlagNone BalancedFlagEncrypted =? 0)) with false.
  cbv iota beta zeta.
  change (Z.of_nat (length (ext_region []))) with 0.
  cbn [bind]. cbv beta iota.
  rewrite (proj2 (Z.ltb_ge MaxMessageSize _)) by lia.
  eexists. split; [reflexivity|].
  change (0 <? 0) with false. cbn [app concat]. rewrite app_nil_r, length_app,
    length_encode_header. change (Z.to_nat BalancedHeaderSize) with 21%nat.
  unfold BalancedHeaderSize. lia.
Qed.

(** A connection that carries the encoded frames of a list of messages,
    one after the other, and then ends: successive [Decode] calls return
    the messages in order, each with its type id, payload and request id,
    and then [EOF]. *)
Theorem decode_stream_of_encoded (msgs : list Frame) :
  Forall frame_fits msgs ->
  decode_stream (S (length msgs)) bin_codec (concat (map encoded_bytes msgs))
  = map Ok msgs ++ [Err ErrEOF].
Proof.
  induction 1 as [|[[typeID data] requestID] msgs Hm Hall IH]; [reflexivity|].
  destruct Hm as (Ht & Hr & Hs).
  destruct (Encode_bin_ok typeID data requestID Hs) as (ws & He & Hl).
  cbn [map concat length decode_stream].
  assert (Hd : Decode bin_codec (encoded_bytes (typeID, data, requestID)
                                 ++ concat (map encoded_bytes msgs))
               = Ok (typeID, data, requestID, concat (map encoded_bytes msgs))).
  { unfold encoded_bytes. rewrite He.
    apply (Encode_then_Decode bin_codec typeID data requestID ws data); auto; lia. }
  rewrite Hd. cbn [decode_stream length] in IH. rewrite IH. reflexivity.
Qed.

Lemma decode_stream_of_encoded_witness :
  decode_stream 3 bin_codec (concat (map encoded_bytes [(1, [7], 0); (2, [], 5)]))
  = [Ok (1, [7], 0); Ok (2, [], 5); Err ErrEOF].
Proof.
  apply (decode_stream_of_encoded [(1, [7], 0); (2, [], 5)]).
  repeat constructor; cbn; lia.
Defined.
